(** * Dependency-confusion checker ([src/main.py]): shallow embedding

    The development follows the layout of the program:

    - [PyStr]      the [str] built-ins that [main.py] and the version
                   library call ([splitlines], [in], [split], [strip], ...);
    - [Re]         a backtracking matcher for the regular-expression
                   fragment used by the version pattern;
    - [PyObj]      Python values and their rich comparisons ([==], [<], [>]),
                   with [TypeError] made explicit;
    - [version]    the [packaging.version] module imported at [main.py:8];
    - the program itself: [check_package_availability],
      [get_installed_packages] and [main].

    Python [str] values are modelled by [string], read as sequences of code
    points below 256 (one [ascii] per code point); Python [int] by [Z]. *)

From Stdlib Require Import ZArith List Bool Lia.
From Stdlib Require Import Strings.String Strings.Ascii.
Import ListNotations.

Open Scope string_scope.
Open Scope Z_scope.

(* ================================================================= *)
(** ** [str] built-ins *)

Module PyStr.

(** Code point of a character. *)
Definition ord (c : ascii) : nat := nat_of_ascii c.

Definition in_range (lo hi : nat) (c : ascii) : bool :=
  (Nat.leb lo (ord c) && Nat.leb (ord c) hi)%bool.

(** [c.isspace()] on code points below 256: TAB..CR, FS..US, SPACE,
    NEL (0x85) and NBSP (0xA0).  The same set is matched by [\s]. *)
Definition isspace (c : ascii) : bool :=
  (in_range 9 13 c || in_range 28 32 c
   || Nat.eqb (ord c) 133 || Nat.eqb (ord c) 160)%bool.

(** Line boundaries of [str.splitlines]: LF, VT, FF, CR, FS, GS, RS, NEL. *)
Definition is_linebreak (c : ascii) : bool :=
  (in_range 10 13 c || in_range 28 30 c || Nat.eqb (ord c) 133)%bool.

Definition is_digit (c : ascii) : bool := in_range 48 57 c.
Definition is_upper (c : ascii) : bool := in_range 65 90 c.
Definition is_lower (c : ascii) : bool := in_range 97 122 c.

(** [c.lower()]: A-Z, and the Latin-1 capitals 0xC0-0xDE other than 0xD7. *)
Definition lower_char (c : ascii) : ascii :=
  if (is_upper c
      || (in_range 192 222 c && negb (Nat.eqb (ord c) 215)))%bool
  then ascii_of_nat (ord c + 32) else c.

Fixpoint lower (s : string) : string :=
  match s with
  | EmptyString => EmptyString
  | String c s' => String (lower_char c) (lower s')
  end.

Fixpoint all_chars (p : ascii -> bool) (s : string) : bool :=
  match s with
  | EmptyString => true
  | String c s' => (p c && all_chars p s')%bool
  end.

(** [s.isdigit()] for the strings it is applied to here (parts of a local
    version label, which the pattern restricts to [[a-z0-9]+]). *)
Definition isdigit (s : string) : bool :=
  match s with
  | EmptyString => false
  | _ => all_chars is_digit s
  end.

(** Truthiness of a [str]: the empty string is falsy. *)
Definition nonempty (s : string) : bool :=
  match s with EmptyString => false | _ => true end.

(** [int(s)] for a string of ASCII digits. *)
Fixpoint int_acc (acc : Z) (s : string) : Z :=
  match s with
  | EmptyString => acc
  | String c s' => int_acc (10 * acc + Z.of_nat (ord c - 48)) s'
  end.

Definition int (s : string) : Z := int_acc 0 s.

(** [s.lstrip()], [s.rstrip()], [s.strip()]. *)
Fixpoint lstrip (s : string) : string :=
  match s with
  | EmptyString => EmptyString
  | String c s' => if isspace c then lstrip s' else s
  end.

Fixpoint rstrip (s : string) : string :=
  match s with
  | EmptyString => EmptyString
  | String c s' =>
      match rstrip s' with
      | EmptyString => if isspace c then EmptyString else String c EmptyString
      | r => String c r
      end
  end.

Definition strip (s : string) : string := rstrip (lstrip s).

(** [sub in s]. *)
Fixpoint contains (sub s : string) : bool :=
  if String.prefix sub s then true
  else match s with
       | EmptyString => false
       | String _ s' => contains sub s'
       end.

(** [s.split(sep)] for a one-character separator; never the empty list. *)
Fixpoint split_acc (sep : ascii) (cur s : string) : list string :=
  match s with
  | EmptyString => [cur]
  | String c s' =>
      if Ascii.eqb c sep then cur :: split_acc sep EmptyString s'
      else split_acc sep (cur ++ String c EmptyString) s'
  end.

Definition split (sep : ascii) (s : string) : list string :=
  split_acc sep EmptyString s.

(** [s.splitlines()]: a CR LF pair is one boundary, and no empty last line
    is produced after a final boundary. *)
Fixpoint splitlines_acc (cur s : string) : list string :=
  match s with
  | EmptyString => if nonempty cur then [cur] else []
  | String c s' =>
      if is_linebreak c then
        cur :: match s' with
               | String c' s'' =>
                   if (Nat.eqb (ord c) 13 && Nat.eqb (ord c') 10)%bool
                   then splitlines_acc EmptyString s''
                   else splitlines_acc EmptyString s'
               | EmptyString => splitlines_acc EmptyString s'
               end
      else splitlines_acc (cur ++ String c EmptyString) s'
  end.

Definition splitlines (s : string) : list string :=
  splitlines_acc EmptyString s.

End PyStr.

(* ================================================================= *)
(** ** Regular expressions

    The fragment of [re] that the version pattern needs, with Python's
    matching discipline: alternatives are tried left to right, [?] and [*]
    are greedy, and a failure further right backtracks into the most recent
    choice.  A match binds the named groups that took part in it. *)

Module Re.

Inductive regex : Type :=
| Eps
| Cls (p : ascii -> bool)          (* a character class *)
| Cat (r1 r2 : regex)
| Alt (r1 r2 : regex)              (* r1|r2 *)
| Opt (r : regex)                  (* r?   *)
| Star (r : regex)                 (* r*   *)
| Group (name : string) (r : regex). (* (?P<name>r) *)

(** Groups bound so far, most recent binding first. *)
Definition groups := list (string * string).

Fixpoint group (name : string) (g : groups) : option string :=
  match g with
  | [] => None
  | (n, v) :: g' => if String.eqb n name then Some v else group name g'
  end.

Definition orelse {A} (x y : option A) : option A :=
  match x with Some _ => x | None => y end.

(** The part of [s] consumed when [s'] is what is left of it. *)
Definition consumed (s s' : string) : string :=
  String.substring 0 (String.length s - String.length s') s.

(** [exec r s g k]: match [r] at the front of [s], then hand the rest of
    the input and the groups to [k]; [None] when every way of matching [r]
    makes [k] fail. *)
Fixpoint exec (r : regex) (s : string) (g : groups)
         (k : string -> groups -> option groups) {struct r} : option groups :=
  match r with
  | Eps => k s g
  | Cls p =>
      match s with
      | String c s' => if p c then k s' g else None
      | EmptyString => None
      end
  | Cat r1 r2 => exec r1 s g (fun s1 g1 => exec r2 s1 g1 k)
  | Alt r1 r2 => orelse (exec r1 s g k) (exec r2 s g k)
  | Opt r1 => orelse (exec r1 s g k) (k s g)
  | Star r1 =>
      (fix loop (n : nat) (s : string) (g : groups) {struct n} : option groups :=
         match n with
         | O => k s g
         | S n' =>
             orelse
               (exec r1 s g
                  (fun s1 g1 =>
                     if Nat.ltb (String.length s1) (String.length s)
                     then loop n' s1 g1 else None))
               (k s g)
         end) (String.length s) s g
  | Group name r1 =>
      exec r1 s g (fun s1 g1 => k s1 ((name, consumed s s1) :: g1))
  end.

Definition Plus (r : regex) : regex := Cat r (Star r).

(** A literal word under [re.IGNORECASE]. *)
Definition ichar (c : ascii) : regex :=
  Cls (fun x => Ascii.eqb (PyStr.lower_char x) (PyStr.lower_char c)).

Fixpoint word (w : string) : regex :=
  match w with
  | EmptyString => Eps
  | String c w' => Cat (ichar c) (word w')
  end.

Fixpoint cat (rs : list regex) : regex :=
  match rs with
  | [] => Eps
  | r :: rs' => Cat r (cat rs')
  end.

Fixpoint alt (rs : list regex) : regex :=
  match rs with
  | [] => Cls (fun _ => false)
  | [r] => r
  | r :: rs' => Alt r (alt rs')
  end.

(** [$] without [re.MULTILINE]: the end of the input, or just before a
    newline that ends it. *)
Definition at_end (s : string) : bool :=
  match s with
  | EmptyString => true
  | String c EmptyString => Nat.eqb (PyStr.ord c) 10
  | _ => false
  end.

(** [re.compile("^" r "$").search(s)]: the pattern is anchored at the start,
    so the only candidate position is the first. *)
Definition search (r : regex) (s : string) : option groups :=
  exec r s [] (fun s' g => if at_end s' then Some g else None).

End Re.

(* ================================================================= *)
(** ** Exceptions

    The exception classes that can reach the handlers of [main]; all of
    them derive from [Exception].  A computation either returns a value or
    raises. *)

Inductive exception : Type :=
| CalledProcessError (returncode : Z)   (* subprocess: non-zero exit *)
| InvalidVersion (v : string)           (* packaging.version *)
| TypeError                             (* unsupported comparison *)
| OtherException (what : string).       (* anything else, e.g. OSError *)

Inductive result (A : Type) : Type :=
| ret (a : A)
| raise (e : exception).

Arguments ret {A} a.
Arguments raise {A} e.

Definition bind {A B} (m : result A) (f : A -> result B) : result B :=
  match m with
  | ret a => f a
  | raise e => raise e
  end.

Notation "x <- m ;; k" := (bind m (fun x => k))
  (at level 61, m at next level, right associativity).

(* ================================================================= *)
(** ** Python values and rich comparison

    The sort keys of the version library are tuples that mix [int], [str],
    nested tuples and the two sentinels of [packaging._structures].  Their
    comparison is Python's: [==] never fails, while [<] and [>] between
    values of unrelated types raise [TypeError] (here [None]). *)

Module PyObj.

#[local] Set Warnings "-register-all".

Inductive pyobj : Type :=
| PyInt (z : Z)
| PyStr (s : string)
| PyTuple (l : list pyobj)
| Infinity                 (* _structures.Infinity *)
| NegativeInfinity.        (* _structures.NegativeInfinity *)

Inductive cmpop : Type := Py_LT | Py_GT.

Definition is_lt (op : cmpop) : bool :=
  match op with Py_LT => true | Py_GT => false end.
Definition is_gt (op : cmpop) : bool :=
  match op with Py_LT => false | Py_GT => true end.

(** [str] ordering is lexicographic on code points. *)
Definition str_lt (s t : string) : bool :=
  match String.compare s t with Lt => true | _ => false end.
Definition str_gt (s t : string) : bool :=
  match String.compare s t with Gt => true | _ => false end.

(** [a == b].  [InfinityType.__eq__] and [NegativeInfinityType.__eq__] are
    [isinstance(other, self.__class__)]; values of different types are
    unequal. *)
Fixpoint py_eq (a b : pyobj) : bool :=
  match a, b with
  | PyInt x, PyInt y => Z.eqb x y
  | PyStr s, PyStr t => String.eqb s t
  | PyTuple l, PyTuple m =>
      (fix eq_items (l m : list pyobj) {struct l} : bool :=
         match l, m with
         | [], [] => true
         | x :: l', y :: m' => (py_eq x y && eq_items l' m')%bool
         | _, _ => false
         end) l m
  | Infinity, Infinity => true
  | NegativeInfinity, NegativeInfinity => true
  | _, _ => false
  end.

(** [a < b] ([Py_LT]) and [a > b] ([Py_GT]).

    - [InfinityType]: [__lt__] is always [False], [__gt__] always [True];
      [NegativeInfinityType] the other way round.  With a sentinel on the
      right and a built-in on the left, the built-in returns
      [NotImplemented] and the sentinel's reflected method answers.
    - Tuples: skip the leading items that are [==]; if one side runs out,
      compare lengths; otherwise compare the first differing items. *)
Fixpoint py_cmp (op : cmpop) (a b : pyobj) : option bool :=
  match a, b with
  | Infinity, _ => Some (is_gt op)
  | NegativeInfinity, _ => Some (is_lt op)
  | _, Infinity => Some (is_lt op)
  | _, NegativeInfinity => Some (is_gt op)
  | PyInt x, PyInt y =>
      Some (match op with Py_LT => Z.ltb x y | Py_GT => Z.gtb x y end)
  | PyStr s, PyStr t =>
      Some (match op with Py_LT => str_lt s t | Py_GT => str_gt s t end)
  | PyTuple l, PyTuple m =>
      (fix cmp_items (l m : list pyobj) {struct l} : option bool :=
         match l, m with
         | x :: l', y :: m' =>
             if py_eq x y then cmp_items l' m' else py_cmp op x y
         | [], [] => Some false
         | [], _ :: _ => Some (is_lt op)
         | _ :: _, [] => Some (is_gt op)
         end) l m
  | _, _ => None
  end.

Definition py_lt : pyobj -> pyobj -> option bool := py_cmp Py_LT.
Definition py_gt : pyobj -> pyobj -> option bool := py_cmp Py_GT.

End PyObj.

(* ================================================================= *)
(** ** [packaging.version]

    Modelled from the spec: [main.py] imports [version] from the
    [packaging] distribution (line 8) and uses [version.parse] and the [>]
    of the objects it returns (lines 138-141); that module is not part of
    [src/].  Spec sections 3 and 4.1 describe it: a parser into numeric
    release segments, an optional pre/post/dev qualifier and an optional
    local tag, which fails on input without a leading numeric segment, and
    an order on the results in which releases are compared segment by
    segment, a pre-release precedes its final release, and qualifiers
    compare by (tag, number).

    Where the spec leaves the details open (the exact grammar, epochs, the
    place of post and dev releases, local labels), the model follows the
    library the program runs, packaging 22 to 25, definition by definition:
    [VERSION_PATTERN], [_parse_letter_version], [_parse_local_version],
    [_cmpkey], and comparison of versions as comparison of their keys.
    [parse] raises [InvalidVersion] on a string the pattern rejects. *)

Module version.

Import PyStr Re PyObj.

Definition digit : regex := Cls is_digit.                       (* [0-9] *)
Definition sep : regex :=                                       (* [-_\.] *)
  Cls (fun c => (Ascii.eqb c "-" || Ascii.eqb c "_" || Ascii.eqb c ".")%bool).
Definition alnum : regex :=                                     (* [a-z0-9] *)
  Cls (fun c => (is_lower c || is_upper c || is_digit c)%bool).
Definition ws : regex := Cls isspace.                           (* \s *)
Definition chr (c : ascii) : regex := Cls (Ascii.eqb c).

Definition VERSION_PATTERN : regex :=
  cat [
    Opt (ichar "v");
    Opt (Cat (Group "epoch" (Plus digit)) (chr "!"));
    Group "release" (Cat (Plus digit) (Star (Cat (chr ".") (Plus digit))));
    Opt (Group "pre" (cat [
      Opt sep;
      Group "pre_l" (alt [word "alpha"; word "a"; word "beta"; word "b";
                          word "preview"; word "pre"; word "c"; word "rc"]);
      Opt sep;
      Opt (Group "pre_n" (Plus digit)) ]));
    Opt (Group "post" (Alt
      (Cat (chr "-") (Group "post_n1" (Plus digit)))
      (cat [
        Opt sep;
        Group "post_l" (alt [word "post"; word "rev"; word "r"]);
        Opt sep;
        Opt (Group "post_n2" (Plus digit)) ])));
    Opt (Group "dev" (cat [
      Opt sep;
      Group "dev_l" (word "dev");
      Opt sep;
      Opt (Group "dev_n" (Plus digit)) ]));
    Opt (Cat (chr "+")
             (Group "local" (Cat (Plus alnum)
                                 (Star (Cat sep (Plus alnum))))))
  ].

(** [Version._regex]: [r"^\s*" + VERSION_PATTERN + r"\s*$"]. *)
Definition _regex : regex := cat [Star ws; VERSION_PATTERN; Star ws].

(** A part of a local version label: [int] when all digits, else [str]. *)
Inductive local_part : Type :=
| LInt (n : Z)
| LStr (s : string).

Record _Version : Type := mk_Version {
  epoch : Z;
  release : list Z;
  dev : option (string * Z);
  pre : option (string * Z);
  post : option (string * Z);
  local : option (list local_part)
}.

(** Truthiness of an optional group: [None] and the empty string are
    falsy. *)
Definition truthy (x : option string) : bool :=
  match x with Some s => nonempty s | None => false end.

(** [x or y]. *)
Definition py_or (x y : option string) : option string :=
  if truthy x then x else y.

Definition _parse_letter_version (letter number : option string)
  : option (string * Z) :=
  match letter with
  | Some l =>
      if nonempty l then
        let number := match number with None => 0 | Some n => int n end in
        let letter := lower l in
        let letter :=
          if String.eqb letter "alpha" then "a"
          else if String.eqb letter "beta" then "b"
          else if (String.eqb letter "c" || String.eqb letter "pre"
                   || String.eqb letter "preview")%bool then "rc"
          else if (String.eqb letter "rev" || String.eqb letter "r")%bool
               then "post"
          else letter in
        Some (letter, number)
      else if truthy number
           then option_map (fun n => ("post", int n)) number
           else None
  | None =>
      match number with
      | Some n => if nonempty n then Some ("post", int n) else None
      | None => None
      end
  end.

(** [_local_version_separators.split(local)]: split at every [.], [_]
    or [-]. *)
Fixpoint split_seps (cur s : string) : list string :=
  match s with
  | EmptyString => [cur]
  | String c s' =>
      if (Ascii.eqb c "." || Ascii.eqb c "_" || Ascii.eqb c "-")%bool
      then cur :: split_seps EmptyString s'
      else split_seps (cur ++ String c EmptyString) s'
  end.

Definition _parse_local_version (local : option string)
  : option (list local_part) :=
  match local with
  | Some l =>
      Some (map (fun part => if negb (isdigit part) then LStr (lower part)
                             else LInt (int part))
                (split_seps EmptyString l))
  | None => None
  end.

(** [itertools.dropwhile(lambda x: x == 0, xs)]. *)
Fixpoint dropwhile_zero (xs : list Z) : list Z :=
  match xs with
  | [] => []
  | x :: xs' => if Z.eqb x 0 then dropwhile_zero xs' else xs
  end.

Definition py_pair (p : string * Z) : pyobj :=
  PyTuple [PyStr (fst p); PyInt (snd p)].

Definition isNone {A} (x : option A) : bool :=
  match x with None => true | Some _ => false end.

Definition _cmpkey (epoch : Z) (release : list Z)
           (pre post dev : option (string * Z))
           (local : option (list local_part)) : pyobj :=
  let _release := rev (dropwhile_zero (rev release)) in
  let _pre :=
    if (isNone pre && isNone post && negb (isNone dev))%bool
    then NegativeInfinity
    else match pre with
         | None => Infinity
         | Some p => py_pair p
         end in
  let _post :=
    match post with
    | None => NegativeInfinity
    | Some p => py_pair p
    end in
  let _dev :=
    match dev with
    | None => Infinity
    | Some p => py_pair p
    end in
  let _local :=
    match local with
    | None => NegativeInfinity
    | Some l =>
        PyTuple (map (fun i => match i with
                               | LInt n => PyTuple [PyInt n; PyStr EmptyString]
                               | LStr s => PyTuple [NegativeInfinity; PyStr s]
                               end) l)
    end in
  PyTuple [PyInt epoch; PyTuple (map PyInt _release);
           _pre; _post; _dev; _local].

Record Version : Type := mkVersion {
  _version : _Version;
  _key : pyobj
}.

(** [Version.__init__]. *)
Definition Version_init (version : string) : result Version :=
  match search _regex version with
  | None => raise (InvalidVersion version)
  | Some m =>
      let v := {|
        epoch := if truthy (group "epoch" m)
                 then match group "epoch" m with
                      | Some e => int e
                      | None => 0
                      end
                 else 0;
        release := match group "release" m with
                   | Some r => map int (split "." r)
                   | None => []
                   end;
        pre := _parse_letter_version (group "pre_l" m) (group "pre_n" m);
        post := _parse_letter_version
                  (group "post_l" m)
                  (py_or (group "post_n1" m) (group "post_n2" m));
        dev := _parse_letter_version (group "dev_l" m) (group "dev_n" m);
        local := _parse_local_version (group "local" m)
      |} in
      ret {| _version := v;
             _key := _cmpkey (epoch v) (release v)
                             (pre v) (post v) (dev v) (local v) |}
  end.

(** [packaging.version.parse]. *)
Definition parse (version : string) : result Version := Version_init version.

(** [_BaseVersion.__lt__], [__eq__], [__gt__]: the keys are compared. *)
Definition of_cmp (x : option bool) : result bool :=
  match x with
  | Some b => ret b
  | None => raise TypeError
  end.

Definition __lt__ (self other : Version) : result bool :=
  of_cmp (py_lt (_key self) (_key other)).
Definition __eq__ (self other : Version) : bool :=
  py_eq (_key self) (_key other).
Definition __gt__ (self other : Version) : result bool :=
  of_cmp (py_gt (_key self) (_key other)).

End version.

(* ================================================================= *)
(** ** The program's environment *)

(** [argparse] namespace returned by [setup_argparse]. *)
Record Args : Type := mkArgs {
  package : option string;       (* -p / --package, default None *)
  pypi_url : string;             (* -r / --pypi_url *)
  verbose : bool                 (* -v / --verbose *)
}.

(** What running a child process comes to: it ran and exited, or it could
    not be run at all. *)
Record CompletedProcess : Type := mkCompleted {
  returncode : Z;
  stdout : string
}.

Inductive spawn : Type :=
| Ran (p : CompletedProcess)
| SpawnError (what : string).

(** Everything outside the program that it reads. *)
Record World : Type := mkWorld {
  sys_executable : string;
  run_process : list string -> spawn;
  (** the distributions of [pkg_resources.working_set] as
      [(key, version)] pairs, or the error its enumeration raises *)
  working_set : result (list (string * string))
}.

(** [subprocess.run(command, capture_output=True, text=True, check=True)]. *)
Definition subprocess_run (w : World) (command : list string)
  : result CompletedProcess :=
  match run_process w command with
  | Ran p =>
      if Z.eqb (returncode p) 0 then ret p
      else raise (CalledProcessError (returncode p))
  | SpawnError what => raise (OtherException what)
  end.

(** A [dict] with [str] keys, in insertion order. *)
Definition dict (V : Type) : Type := list (string * V).

Fixpoint dict_set {V} (k : string) (v : V) (d : dict V) : dict V :=
  match d with
  | [] => [(k, v)]
  | (k', v') :: d' =>
      if String.eqb k' k then (k, v) :: d' else (k', v') :: dict_set k v d'
  end.

(** [d.get(k)]: the value stored under [k], [None] for a missing key. *)
Fixpoint dict_get {V} (k : string) (d : dict V) : option V :=
  match d with
  | [] => None
  | (k', v) :: d' => if String.eqb k' k then Some v else dict_get k d'
  end.

(** Records written through [logging], one constructor per call site. *)
Inductive LogRecord : Type :=
| warn_not_found (package_name : string)                   (* line 82 *)
| error_checking (package_name : string) (e : exception)   (* line 85 *)
| error_unexpected (e : exception)                         (* line 88 *)
| error_installed (e : exception)                          (* line 104 *)
| warn_no_packages                                         (* line 125 *)
| info_not_found (package_name : string)                   (* line 136 *)
| warn_confusion (package_name installed_version pypi_version : string)
                                                           (* line 142 *)
| info_up_to_date (package_name : string)                  (* line 152 *)
| error_failed (package_name : string)                     (* line 155 *)
| error_processing (package_name : string) (e : exception). (* line 157 *)

(* ================================================================= *)
(** ** [check_package_availability] (lines 41-89) *)

(** Lines 75-80: the first line that contains "Latest version" and has a
    colon gives the result; [None] when the loop runs out of lines. *)
Fixpoint latest_version (lines : list string) : option string :=
  match lines with
  | [] => None
  | line :: rest =>
      if PyStr.contains "Latest version" line then
        let parts := PyStr.split ":" line in
        if Nat.ltb 1 (List.length parts)
        then Some (PyStr.strip (nth 1 parts EmptyString))
        else latest_version rest
      else latest_version rest
  end.

(** Lines 58-67. *)
Definition pip_command (w : World) (package_name pypi_url : string)
  : list string :=
  [sys_executable w; "-m"; "pip"; "index"; "versions";
   package_name; "--index-url"; pypi_url].

Definition check_package_availability (w : World)
           (package_name pypi_url : string)
  : list LogRecord * result (option string) :=
  let command := pip_command w package_name pypi_url in
  match subprocess_run w command with
  | ret result =>
      if PyStr.nonempty (stdout result)
      then ([], ret (latest_version (PyStr.splitlines (stdout result))))
      else ([warn_not_found package_name], ret None)
  | raise (CalledProcessError rc) =>
      ([error_checking package_name (CalledProcessError rc)],
       raise (CalledProcessError rc))
  | raise e => ([error_unexpected e], raise e)
  end.

(* ================================================================= *)
(** ** [get_installed_packages] (lines 92-107) *)

Definition get_installed_packages (w : World)
  : list LogRecord * dict string :=
  match working_set w with
  | ret dists =>
      ([], fold_left (fun installed_packages d =>
                        dict_set (fst d) (snd d) installed_packages)
                     dists [])
  | raise e => ([error_installed e], [])
  end.

(* ================================================================= *)
(** ** [main] (lines 110-169) *)

(** An entry of [vulnerable_packages]. *)
Record Vuln : Type := mkVuln {
  v_package : string;
  v_installed_version : string;
  v_pypi_version : string
}.

(** The part of the program state that the loop updates. *)
Record State : Type := mkState {
  log : list LogRecord;
  vulnerable_packages : list Vuln
}.

(** Lines 138-152, after a lookup that returned [pypi_version]: what is
    logged and what is appended to [vulnerable_packages]. *)
Definition compare_versions (package_name : string)
           (installed_version : option string) (pypi_version : string)
  : result (LogRecord * option Vuln) :=
  installed_version_obj <-
    (if version.truthy installed_version
     then match installed_version with
          | Some iv => v <- version.parse iv ;; ret (Some v)
          | None => ret None
          end
     else ret None) ;;
  pypi_version_obj <- version.parse pypi_version ;;
  newer <-
    match installed_version_obj with
    | Some ivo => version.__gt__ ivo pypi_version_obj
    | None => ret false
    end ;;
  if newer then
    match installed_version with
    | Some iv =>
        ret (warn_confusion package_name iv pypi_version,
             Some {| v_package := package_name;
                     v_installed_version := iv;
                     v_pypi_version := pypi_version |})
    | None => ret (info_up_to_date package_name, None)
    end
  else ret (info_up_to_date package_name, None).

(** Lines 131-157: the [try] block and its two handlers. *)
Definition try_package (w : World) (pypi_url package_name : string)
           (installed_version : option string)
  : list LogRecord * option Vuln :=
  let (logged, looked_up) :=
    check_package_availability w package_name pypi_url in
  let attempt :=
    pypi_version <- looked_up ;;
    match pypi_version with
    | None => ret (info_not_found package_name, None)
    | Some pv => compare_versions package_name installed_version pv
    end in
  match attempt with
  | ret (r, vuln) => ((logged ++ [r])%list, vuln)
  | raise (CalledProcessError _) =>
      ((logged ++ [error_failed package_name])%list, None)
  | raise e => ((logged ++ [error_processing package_name e])%list, None)
  end.

(** One iteration of the loop at line 130. *)
Definition loop_body (w : World) (pypi_url : string) (st : State)
           (item : string * option string) : State :=
  let (logged, vuln) := try_package w pypi_url (fst item) (snd item) in
  {| log := (log st ++ logged)%list;
     vulnerable_packages :=
       (vulnerable_packages st
        ++ match vuln with Some v => [v] | None => [] end)%list |}.

(** Lines 119-122. *)
Definition packages_to_check (w : World) (args : Args)
  : list LogRecord * dict (option string) :=
  if version.truthy (package args)
  then match package args with
       | Some p => ([], [(p, None)])
       | None => ([], [])
       end
  else let (logged, installed) := get_installed_packages w in
       (logged, map (fun kv => (fst kv, Some (snd kv))) installed).

Definition newline : string := String (ascii_of_nat 10) EmptyString.

Definition print_vuln (vuln : Vuln) : string :=
  "  - Package: " ++ v_package vuln
  ++ ", Installed Version: " ++ v_installed_version vuln
  ++ "," ++ " PyPI Version: " ++ v_pypi_version vuln.

(** What a run of the program leaves behind. *)
Record Run : Type := mkRun {
  run_log : list LogRecord;
  found : list Vuln;             (* [vulnerable_packages] at line 159 *)
  printed : list string;         (* one entry per [print] call *)
  exit_status : Z                (* argument of [sys.exit] *)
}.

Definition main (w : World) (args : Args) : Run :=
  let (logged, targets) := packages_to_check w args in
  match targets with
  | [] =>
      {| run_log := (logged ++ [warn_no_packages])%list;
         found := [];
         printed := [];
         exit_status := 0 |}
  | _ =>
      let st := fold_left (loop_body w (pypi_url args)) targets
                          {| log := logged; vulnerable_packages := [] |} in
      match vulnerable_packages st with
      | [] =>
          {| run_log := log st;
             found := [];
             printed :=
               ["No potential dependency confusion vulnerabilities found."];
             exit_status := 0 |}
      | vulns =>
          {| run_log := log st;
             found := vulns;
             printed :=
               (newline
                ++ "Potential Dependency Confusion Vulnerabilities Found:")
               :: map print_vuln vulns;
             exit_status := 1 |}
      end
  end.

(* ================================================================= *)
(** ** The scan report

    The program keeps no report object; what it decides for a package is
    visible as the one record the loop body logs for it.  The five outcomes
    of the specification are read off those records: lines 136, 142 and 152
    are [NotOnRegistry], [Confused] and [UpToDate]; the first handler (line
    155) is [LookupFailed]; the second handler (line 157) is [Unparseable]
    when the error comes from the version library and [LookupFailed]
    otherwise. *)

Inductive Outcome : Type :=
| NotOnRegistry
| Confused
| UpToDate
| Unparseable
| LookupFailed.

Definition outcome_of (r : LogRecord) : option (string * Outcome) :=
  match r with
  | info_not_found n => Some (n, NotOnRegistry)
  | warn_confusion n _ _ => Some (n, Confused)
  | info_up_to_date n => Some (n, UpToDate)
  | error_failed n => Some (n, LookupFailed)
  | error_processing n (InvalidVersion _) => Some (n, Unparseable)
  | error_processing n TypeError => Some (n, Unparseable)
  | error_processing n _ => Some (n, LookupFailed)
  | _ => None
  end.

Fixpoint report_of (rs : list LogRecord) : list (string * Outcome) :=
  match rs with
  | [] => []
  | r :: rs' =>
      match outcome_of r with
      | Some o => o :: report_of rs'
      | None => report_of rs'
      end
  end.

Definition report (r : Run) : list (string * Outcome) :=
  report_of (run_log r).

(** Line 159: [if vulnerable_packages:]. *)
Definition hasVulnerabilities (r : Run) : bool :=
  match found r with [] => false | _ => true end.

Definition Outcome_eqb (a b : Outcome) : bool :=
  match a, b with
  | NotOnRegistry, NotOnRegistry | Confused, Confused | UpToDate, UpToDate
  | Unparseable, Unparseable | LookupFailed, LookupFailed => true
  | _, _ => false
  end.

(** Number of entries of a report with a given outcome. *)
Definition count (o : Outcome) (rep : list (string * Outcome)) : nat :=
  List.length (filter (fun e => Outcome_eqb (snd e) o) rep).

(** A registry that answers every [pip index versions <name>] from a
    table of standard outputs, and fails for names not in the table. *)
Definition table_world (installed : list (string * string))
           (answers : list (string * spawn)) : World :=
  {| sys_executable := "python3";
     run_process := fun command =>
       match find (fun a => String.eqb (fst a) (nth 5 command EmptyString))
                  answers with
       | Some a => snd a
       | None => SpawnError "unreachable"
       end;
     working_set := ret installed |}.

Definition pip_says (v : string) : spawn :=
  Ran {| returncode := 0;
         stdout := "foo (" ++ v ++ ")" ++ newline
                   ++ "Available versions: " ++ v ++ newline
                   ++ "  INSTALLED: " ++ v ++ newline
                   ++ "  LATEST:    " ++ v ++ newline
                   ++ "Latest version: " ++ v ++ newline |}.

Definition default_args : Args :=
  {| package := None; pypi_url := "https://pypi.org/pypi/"; verbose := false |}.

(** The first two end-to-end scenarios of the specification, and the
    arguments of a run with [-p foo]. *)
Definition foo_newer : World :=
  table_world [("foo", "2.0.0")] [("foo", pip_says "1.5.0")].
Definition foo_older : World :=
  table_world [("foo", "1.0.0")] [("foo", pip_says "1.5.0")].
Definition foo_only : Args :=
  {| package := Some "foo"; pypi_url := "https://pypi.org/pypi/";
     verbose := false |}.

(** pip exits with status 0 and prints something that is not a listing,
    or nothing at all. *)
Definition garbage_world : World :=
  table_world [] [("foo", Ran {| returncode := 0; stdout := "garbage" |})].
Definition silent_world : World :=
  table_world [] [("foo", Ran {| returncode := 0; stdout := EmptyString |})].

(** A scan that meets every kind of answer: [foo] does not parse, the
    lookup of [bar] cannot be run, [baz] is not on the registry, [qux] is
    newer than published. *)
Definition mixed_world : World :=
  table_world [("foo", "not-a-version"); ("bar", "1.0"); ("baz", "3");
               ("qux", "2.0.0")]
              [("foo", pip_says "1.5.0");
               ("baz", Ran {| returncode := 0; stdout := EmptyString |});
               ("qux", pip_says "1.5.0")].

(** What the loop body reports for one target. *)
Definition scanned (w : World) (pypi_url : string)
           (item : string * option string) : list (string * Outcome) :=
  report_of (fst (try_package w pypi_url (fst item) (snd item))).

(** The vulnerabilities one target contributes. *)
Definition vuln_of (w : World) (u : string) (item : string * option string)
  : list Vuln :=
  match snd (try_package w u (fst item) (snd item)) with
  | Some v => [v]
  | None => []
  end.

(** The targets of a run, without what computing them logs. *)
Definition targets (w : World) (args : Args) : dict (option string) :=
  snd (packages_to_check w args).

(** The result of the registry lookup for one package, without its log. *)
Definition lookup (w : World) (args : Args) (package_name : string)
  : result (option string) :=
  snd (check_package_availability w package_name (pypi_url args)).

(* ================================================================= *)
(** ** Two statements of the specification, as it words them *)

(** Spec 4.2 rule 2 and "never silently safe": a package present on the
    registry whose local version is unknown, or whose local or registry
    version fails to parse, is [Unparseable]. *)
Definition never_silently_safe : Prop :=
  forall w args i name local registry,
    nth_error (targets w args) i = Some (name, local) ->
    lookup w args name = ret (Some registry) ->
    (local = None
     \/ (exists s e, local = Some s /\ version.parse s = raise e)
     \/ (exists e, version.parse registry = raise e)) ->
    nth_error (report (main w args)) i = Some (name, Unparseable).

(** Spec 6: a malformed response, that is non-empty output from which no
    version can be extracted, is a lookup error. *)
Definition malformed_is_error : Prop :=
  forall w name url p,
    run_process w (pip_command w name url) = Ran p ->
    returncode p = 0 ->
    PyStr.nonempty (stdout p) = true ->
    latest_version (PyStr.splitlines (stdout p)) = None ->
    exists e, snd (check_package_availability w name url) = raise e.

(* ================================================================= *)
(** ** Version keys: definitions used by the statements *)

Module Keys.

Import PyObj version.

(** The shapes that fill the pre, post and dev slots of a key. *)
Inductive slot : pyobj -> Prop :=
| slot_inf : slot Infinity
| slot_neginf : slot NegativeInfinity
| slot_pair : forall p, slot (py_pair p).

Definition local_item (i : local_part) : pyobj :=
  match i with
  | LInt n => PyTuple [PyInt n; PyStr EmptyString]
  | LStr s => PyTuple [NegativeInfinity; PyStr s]
  end.

(** The key of a parsed version, as a function of its fields. *)
Definition key_of (v : _Version) : pyobj :=
  _cmpkey (epoch v) (release v) (pre v) (post v) (dev v) (local v).

(** A release with no qualifier at all. *)
Definition plain (v : _Version) : Prop :=
  pre v = None /\ post v = None /\ dev v = None /\ local v = None.

(** Spec 4.1 in its own words: release segments are compared pairwise,
    left to right, the shorter sequence padded with zeros, and the first
    unequal pair decides. *)
Fixpoint compare_pairwise (r1 r2 : list Z) : comparison :=
  match r1, r2 with
  | x :: r1', y :: r2' =>
      match Z.compare x y with
      | Eq => compare_pairwise r1' r2'
      | c => c
      end
  | _, _ => Eq
  end.

Definition pad (n : nat) (r : list Z) : list Z :=
  (r ++ repeat 0 (n - List.length r))%list.

Definition compare_padded (r1 r2 : list Z) : comparison :=
  let n := Nat.max (List.length r1) (List.length r2) in
  compare_pairwise (pad n r1) (pad n r2).

(** The order of tuples of [int]: by the first unequal pair, and a proper
    prefix before the longer tuple. *)
Fixpoint lex (l m : list Z) : comparison :=
  match l, m with
  | [], [] => Eq
  | [], _ :: _ => Lt
  | _ :: _, [] => Gt
  | x :: l', y :: m' =>
      match Z.compare x y with
      | Eq => lex l' m'
      | c => c
      end
  end.

(** The release of a key: trailing zeros dropped. *)
Definition stripped (release : list Z) : list Z :=
  rev (dropwhile_zero (rev release)).

Definition is_Lt (c : comparison) : bool :=
  match c with Lt => true | _ => false end.
Definition is_Eq (c : comparison) : bool :=
  match c with Eq => true | _ => false end.
Definition is_Gt (c : comparison) : bool :=
  match c with Gt => true | _ => false end.

End Keys.

(* ================================================================= *)
(** ** Ordering of Python values: definitions used by the statements *)

Module Order.

Import PyObj.

(** Exactly one of [a < b], [a == b], [a > b] holds, and neither [<] nor
    [>] raises. *)
Definition trichotomy (a b : pyobj) : Prop :=
  (py_lt a b = Some true /\ py_eq a b = false /\ py_gt a b = Some false)
  \/ (py_lt a b = Some false /\ py_eq a b = true /\ py_gt a b = Some false)
  \/ (py_lt a b = Some false /\ py_eq a b = false /\ py_gt a b = Some true).

(** What tuple comparison needs of two items: when they are not [==],
    exactly one of [<] and [>] holds and neither raises. *)
Definition ordered (a b : pyobj) : Prop :=
  py_eq a b = true
  \/ (py_eq a b = false /\ py_lt a b = Some true /\ py_gt a b = Some false)
  \/ (py_eq a b = false /\ py_lt a b = Some false /\ py_gt a b = Some true).

Inductive items_ordered : list pyobj -> list pyobj -> Prop :=
| io_left : forall m, items_ordered [] m
| io_right : forall l, items_ordered l []
| io_cons : forall x y l m,
    ordered x y -> items_ordered l m -> items_ordered (x :: l) (y :: m).

End Order.

(* ================================================================= *)
(** ** Definitions used by the further properties *)

(** A line of pip's output that the loop at lines 75-79 passes over: it
    lacks "Latest version" or it lacks a colon. *)
Definition passed_over (line : string) : Prop :=
  PyStr.contains "Latest version" line = false
  \/ PyStr.contains ":" line = false.

(** The same world with another set of installed distributions. *)
Definition with_working_set (w : World)
           (ws : result (list (string * string))) : World :=
  {| sys_executable := sys_executable w;
     run_process := run_process w;
     working_set := ws |}.

(** The string of one character. *)
Definition one (c : ascii) : string := String c EmptyString.

(** The dictionary that lines 101-102 build from the distributions. *)
Definition collect (dists : list (string * string)) : dict string :=
  fold_left (fun installed_packages d =>
               dict_set (fst d) (snd d) installed_packages) dists [].

(** A working set that lists [foo] twice, and one whose enumeration
    fails. *)
Definition twice_world : World :=
  table_world [("foo", "1.0"); ("bar", "2.0"); ("foo", "3.0")] [].
Definition broken_world : World :=
  with_working_set foo_newer (raise (OtherException "broken")).

(** Output in which the first line with "Latest version" and a colon is
    not the line that announces the version. *)
Definition two_answers : string :=
  "note: 2.0 Latest version" ++ newline
  ++ "see: 3.1 :Latest version: 9.9" ++ newline
  ++ "Latest version: 1.5.0" ++ newline.
Definition two_answers_world : World :=
  table_world [] [("foo", Ran {| returncode := 0; stdout := two_answers |})].

(** pip prints a listing for [foo] and exits with status 1. *)
Definition failing_world : World :=
  table_world [("foo", "2.0.0")]
              [("foo", Ran {| returncode := 1;
                              stdout := "Latest version: 1.5.0" |})].

(** [foo_newer] with a registry that also knows a package nobody asks
    about, and a world where the installed and the published version are
    written differently but are equal. *)
Definition foo_newer_and_more : World :=
  table_world [("foo", "2.0.0")]
              [("foo", pip_says "1.5.0"); ("zzz", pip_says "9")].
Definition foo_same : World :=
  table_world [("foo", "1.0")] [("foo", pip_says "v1.0.0")].

(** pip announces a version that is blank. *)
Definition blank_world : World :=
  table_world [("foo", "2.0.0")]
              [("foo", Ran {| returncode := 0;
                              stdout := "Latest version:   " |})].

(** The names of the [Confused] entries of a report, in order. *)
Definition confused_names (rep : list (string * Outcome)) : list string :=
  map fst (filter (fun e => Outcome_eqb (snd e) Confused) rep).

(* ================================================================= *)
(** * Properties *)

Module OrderFacts.

Import PyObj Order.

Lemma trichotomy_ordered a b : trichotomy a b -> ordered a b.
Proof.
  unfold trichotomy, ordered; intuition.
Qed.

Lemma tuple_trichotomy l m :
  items_ordered l m -> trichotomy (PyTuple l) (PyTuple m).
Proof.
  unfold trichotomy, py_lt, py_gt.
  induction 1 as [m | l | x y l m Hxy _ IH].
  - destruct m; simpl; auto.
  - destruct l; simpl; auto.
  - simpl in *.
    destruct Hxy as [E | [(E & L & G) | (E & L & G)]]; rewrite E; simpl.
    + exact IH.
    + left; auto.
    + right; right; auto.
Qed.

Lemma int_ordered x y : ordered (PyInt x) (PyInt y).
Proof.
  unfold ordered, py_lt, py_gt; simpl.
  destruct (Z.compare_spec x y) as [E | L | G].
  - left. now apply Z.eqb_eq.
  - right; left. repeat split.
    + apply Z.eqb_neq; lia.
    + f_equal; apply Z.ltb_lt; lia.
    + f_equal. rewrite Z.gtb_ltb. apply Z.ltb_ge; lia.
  - right; right. repeat split.
    + apply Z.eqb_neq; lia.
    + f_equal; apply Z.ltb_ge; lia.
    + f_equal. rewrite Z.gtb_ltb. apply Z.ltb_lt; lia.
Qed.

Lemma string_compare_refl s : String.compare s s = Eq.
Proof.
  induction s as [| c s IH]; simpl; auto.
  unfold Ascii.compare. rewrite N.compare_refl. exact IH.
Qed.

Lemma str_ordered s t : ordered (PyStr s) (PyStr t).
Proof.
  unfold ordered, py_lt, py_gt; simpl. unfold str_lt, str_gt.
  destruct (String.compare s t) eqn:C.
  - left. apply String.compare_eq_iff in C. subst. apply String.eqb_refl.
  - right; left. repeat split; auto.
    apply String.eqb_neq. intros ->. rewrite string_compare_refl in C.
    discriminate.
  - right; right. repeat split; auto.
    apply String.eqb_neq. intros ->. rewrite string_compare_refl in C.
    discriminate.
Qed.

End OrderFacts.

Module VersionFacts.

Import PyObj Order OrderFacts version Keys.

Lemma pair_trichotomy p q : trichotomy (py_pair p) (py_pair q).
Proof.
  apply tuple_trichotomy.
  apply io_cons; [apply str_ordered |].
  apply io_cons; [apply int_ordered | apply io_left].
Qed.

Lemma slot_ordered x y : slot x -> slot y -> ordered x y.
Proof.
  intros [| | p] [| | q];
    try (apply trichotomy_ordered, pair_trichotomy);
    unfold ordered, py_lt, py_gt; simpl; auto.
Qed.

Lemma ints_ordered l m : items_ordered (map PyInt l) (map PyInt m).
Proof.
  revert m; induction l as [| x l IH]; intros m; [apply io_left |].
  destruct m as [| y m]; [apply io_right |].
  simpl. apply io_cons; [apply int_ordered | apply IH].
Qed.

Lemma local_item_ordered i j : ordered (local_item i) (local_item j).
Proof.
  destruct i as [n | s], j as [k | t]; simpl;
    apply trichotomy_ordered, tuple_trichotomy.
  - apply io_cons; [apply int_ordered |].
    apply io_cons; [apply str_ordered | apply io_left].
  - apply io_cons; [unfold ordered, py_lt, py_gt; simpl; auto |].
    apply io_cons; [apply str_ordered | apply io_left].
  - apply io_cons; [unfold ordered, py_lt, py_gt; simpl; auto |].
    apply io_cons; [apply str_ordered | apply io_left].
  - apply io_cons; [unfold ordered; simpl; auto |].
    apply io_cons; [apply str_ordered | apply io_left].
Qed.

Lemma locals_ordered l m :
  items_ordered (map local_item l) (map local_item m).
Proof.
  revert m; induction l as [| x l IH]; intros m; [apply io_left |].
  destruct m as [| y m]; [apply io_right |].
  simpl. apply io_cons; [apply local_item_ordered | apply IH].
Qed.

Lemma key_trichotomy a b : trichotomy (key_of a) (key_of b).
Proof.
  unfold key_of, _cmpkey.
  apply tuple_trichotomy.
  apply io_cons; [apply int_ordered |].
  apply io_cons;
    [apply trichotomy_ordered, tuple_trichotomy, ints_ordered |].
  apply io_cons.
  { apply slot_ordered.
    - destruct (pre a), (post a), (dev a); simpl; constructor.
    - destruct (pre b), (post b), (dev b); simpl; constructor. }
  apply io_cons.
  { apply slot_ordered; [destruct (post a) | destruct (post b)];
      constructor. }
  apply io_cons.
  { apply slot_ordered; [destruct (dev a) | destruct (dev b)];
      constructor. }
  apply io_cons; [| apply io_left].
  destruct (local a) as [la |], (local b) as [lb |].
  - apply trichotomy_ordered, tuple_trichotomy, locals_ordered.
  - unfold ordered, py_lt, py_gt; simpl; auto.
  - unfold ordered, py_lt, py_gt; simpl; auto.
  - unfold ordered; simpl; auto.
Qed.

Lemma parse_key s v : parse s = ret v -> _key v = key_of (_version v).
Proof.
  unfold parse, Version_init.
  destruct (Re.search _regex s); intros H; inversion H; reflexivity.
Qed.

(** [>] between parsed versions returns; it never raises. *)
Lemma gt_returns s t a b :
  parse s = ret a -> parse t = ret b ->
  exists newer, __gt__ a b = ret newer.
Proof.
  intros Ha Hb. unfold __gt__.
  rewrite (parse_key _ _ Ha), (parse_key _ _ Hb).
  destruct (key_trichotomy (_version a) (_version b))
    as [(_ & _ & G) | [(_ & _ & G) | (_ & _ & G)]];
    rewrite G; simpl; eauto.
Qed.

End VersionFacts.

Module ScanFacts.

Import version Keys VersionFacts.

Lemma report_of_app a b :
  report_of (a ++ b) = (report_of a ++ report_of b)%list.
Proof.
  induction a as [| r a IH]; simpl; auto.
  destruct (outcome_of r); simpl; now rewrite IH.
Qed.

(** The lookup raises only what [subprocess.run] raises. *)
Lemma lookup_raises w n u e :
  snd (check_package_availability w n u) = raise e ->
  (exists rc, e = CalledProcessError rc) \/ (exists what, e = OtherException what).
Proof.
  unfold check_package_availability, subprocess_run.
  destruct (run_process w _) as [p | what]; simpl.
  - destruct (Z.eqb (returncode p) 0); simpl.
    + destruct (PyStr.nonempty (stdout p)); simpl; discriminate.
    + intros H; inversion H; eauto.
  - intros H; inversion H; eauto.
Qed.

(** What the lookup logs never counts as an outcome. *)
Lemma lookup_logs_silent w n u :
  report_of (fst (check_package_availability w n u)) = [].
Proof.
  unfold check_package_availability.
  destruct (subprocess_run w _) as [p | [rc | v | | what]]; simpl; auto.
  destruct (PyStr.nonempty (stdout p)); reflexivity.
Qed.

Lemma parse_raises s e : parse s = raise e -> e = InvalidVersion s.
Proof.
  unfold parse, Version_init.
  destruct (Re.search _regex s); intros H; inversion H; reflexivity.
Qed.

Lemma try_package_lookup_raises w u n iv e :
  snd (check_package_availability w n u) = raise e ->
  scanned w u (n, iv) = [(n, LookupFailed)] /\ vuln_of w u (n, iv) = [].
Proof.
  intros H. pose proof (lookup_logs_silent w n u) as S.
  pose proof (lookup_raises _ _ _ _ H) as R.
  unfold scanned, vuln_of, try_package; simpl.
  destruct (check_package_availability w n u) as [lg r]; simpl in *.
  subst r; simpl.
  destruct R as [[rc ->] | [what ->]]; simpl;
    rewrite report_of_app, S; auto.
Qed.

Lemma try_package_not_present w u n iv :
  snd (check_package_availability w n u) = ret None ->
  scanned w u (n, iv) = [(n, NotOnRegistry)] /\ vuln_of w u (n, iv) = [].
Proof.
  intros H. pose proof (lookup_logs_silent w n u) as S.
  unfold scanned, vuln_of, try_package; simpl.
  destruct (check_package_availability w n u) as [lg r]; simpl in *.
  subst r; simpl. rewrite report_of_app, S; auto.
Qed.

(** After a lookup that found [pv], the target's entry is decided by
    [compare_versions]. *)
Lemma try_package_present w u n iv pv :
  snd (check_package_availability w n u) = ret (Some pv) ->
  match compare_versions n iv pv with
  | ret (r, v) =>
      scanned w u (n, iv) = report_of [r]
      /\ vuln_of w u (n, iv) = match v with Some x => [x] | None => [] end
  | raise e =>
      scanned w u (n, iv) = report_of [match e with
                                        | CalledProcessError _ => error_failed n
                                        | _ => error_processing n e
                                        end]
      /\ vuln_of w u (n, iv) = []
  end.
Proof.
  intros H. pose proof (lookup_logs_silent w n u) as S.
  unfold scanned, vuln_of, try_package; simpl.
  destruct (check_package_availability w n u) as [lg r]; simpl in *.
  subst r; simpl.
  destruct (compare_versions n iv pv) as [[r v] | e]; simpl.
  - rewrite report_of_app, S; auto.
  - destruct e; simpl; rewrite report_of_app, S; auto.
Qed.

(** [compare_versions], case by case. *)
Lemma compare_absent n iv pv rv :
  truthy iv = false -> parse pv = ret rv ->
  compare_versions n iv pv = ret (info_up_to_date n, None).
Proof.
  intros T P. unfold compare_versions. rewrite T; simpl. now rewrite P.
Qed.

Lemma compare_local_fails n s pv e :
  PyStr.nonempty s = true -> parse s = raise e ->
  compare_versions n (Some s) pv = raise (InvalidVersion s).
Proof.
  intros T P. unfold compare_versions; simpl. rewrite T.
  rewrite (parse_raises _ _ P) in P. now rewrite P.
Qed.

Lemma compare_registry_fails n iv pv e :
  parse pv = raise e ->
  exists s, compare_versions n iv pv = raise (InvalidVersion s).
Proof.
  intros P. rewrite (parse_raises _ _ P) in P.
  unfold compare_versions.
  destruct (truthy iv); simpl.
  - destruct iv as [s |]; simpl.
    + destruct (parse s) as [v | e'] eqn:Q; simpl.
      * rewrite P; simpl; eauto.
      * rewrite (parse_raises _ _ Q); eauto.
    + rewrite P; simpl; eauto.
  - rewrite P; simpl; eauto.
Qed.

Lemma compare_both n s pv lv rv newer :
  parse s = ret lv -> parse pv = ret rv -> __gt__ lv rv = ret newer ->
  compare_versions n (Some s) pv =
  ret (if newer
       then (warn_confusion n s pv,
             Some {| v_package := n; v_installed_version := s;
                     v_pypi_version := pv |})
       else (info_up_to_date n, None)).
Proof.
  intros P Q G. unfold compare_versions; simpl.
  assert (T : PyStr.nonempty s = true).
  { destruct s; auto. vm_compute in P. discriminate. }
  rewrite T, P; simpl. rewrite Q; simpl. rewrite G; simpl.
  destruct newer; reflexivity.
Qed.

Lemma compare_outcomes n iv pv :
  match compare_versions n iv pv with
  | ret (r, v) =>
      (exists s x, r = warn_confusion n s pv /\ v = Some x)
      \/ (r = info_up_to_date n /\ v = None)
  | raise e => e = TypeError \/ exists s, e = InvalidVersion s
  end.
Proof.
  unfold compare_versions.
  destruct (truthy iv) eqn:T; simpl.
  - destruct iv as [s |]; [| discriminate]; simpl.
    destruct (parse s) as [lv | e] eqn:P; simpl.
    + destruct (parse pv) as [rv | e] eqn:Q; simpl.
      * destruct (gt_returns _ _ _ _ P Q) as [newer G]. rewrite G; simpl.
        destruct newer; eauto.
      * rewrite (parse_raises _ _ Q); eauto.
    + rewrite (parse_raises _ _ P); eauto.
  - destruct (parse pv) as [rv | e] eqn:Q; simpl; auto.
    rewrite (parse_raises _ _ Q); eauto.
Qed.

(** A target without a local version is never added to
    [vulnerable_packages]. *)
Lemma vuln_absent w u n iv :
  truthy iv = false -> vuln_of w u (n, iv) = [].
Proof.
  intros F.
  destruct (snd (check_package_availability w n u)) as [[pv |] | e] eqn:L.
  - pose proof (try_package_present w u n iv pv L) as H.
    destruct (parse pv) as [rv | e] eqn:P.
    + rewrite (compare_absent n iv pv rv F P) in H. now destruct H.
    + destruct (compare_registry_fails n iv pv e P) as [s C].
      rewrite C in H. now destruct H.
  - now destruct (try_package_not_present w u n iv L).
  - now destruct (try_package_lookup_raises w u n iv e L).
Qed.

(** Every target gets exactly one entry, under its own name, and it is
    [Confused] exactly when the target is added to
    [vulnerable_packages]. *)
Lemma scanned_one w u item :
  exists o, scanned w u item = [(fst item, o)]
            /\ count Confused (scanned w u item)
               = List.length (vuln_of w u item).
Proof.
  destruct item as [n iv]; simpl.
  destruct (snd (check_package_availability w n u)) as [[pv |] | e] eqn:L.
  - pose proof (try_package_present w u n iv pv L) as H.
    pose proof (compare_outcomes n iv pv) as C.
    destruct (compare_versions n iv pv) as [[r v] | e].
    + destruct H as [-> ->].
      destruct C as [(s & x & -> & ->) | [-> ->]]; simpl; eauto.
    + destruct H as [-> ->].
      destruct C as [-> | [s ->]]; simpl; eauto.
  - destruct (try_package_not_present w u n iv L) as [-> ->]; eauto.
  - destruct (try_package_lookup_raises w u n iv e L) as [-> ->]; eauto.
Qed.

End ScanFacts.

Module MainFacts.

Import version Keys VersionFacts ScanFacts.

Lemma loop_log w u items st :
  log (fold_left (loop_body w u) items st)
  = (log st
     ++ flat_map (fun it => fst (try_package w u (fst it) (snd it))) items)%list.
Proof.
  revert st; induction items as [| it items IH]; intros st; simpl.
  - now rewrite app_nil_r.
  - rewrite IH. unfold loop_body.
    destruct (try_package w u (fst it) (snd it)) as [lg v]; simpl.
    now rewrite <- app_assoc.
Qed.

Lemma loop_vulnerable w u items st :
  vulnerable_packages (fold_left (loop_body w u) items st)
  = (vulnerable_packages st ++ flat_map (vuln_of w u) items)%list.
Proof.
  revert st; induction items as [| it items IH]; intros st; simpl.
  - now rewrite app_nil_r.
  - rewrite IH. unfold loop_body, vuln_of.
    destruct (try_package w u (fst it) (snd it)) as [lg v]; simpl.
    now rewrite <- app_assoc.
Qed.

Lemma report_of_flat_map w u items :
  report_of
    (flat_map (fun it => fst (try_package w u (fst it) (snd it))) items)
  = flat_map (scanned w u) items.
Proof.
  induction items as [| it items IH]; simpl; auto.
  rewrite report_of_app, IH. reflexivity.
Qed.

Lemma targets_log_silent w args :
  report_of (fst (packages_to_check w args)) = [].
Proof.
  unfold packages_to_check, get_installed_packages.
  destruct (truthy (package args)).
  - destruct (package args); reflexivity.
  - destruct (working_set w); reflexivity.
Qed.

(** The report of a run lists the targets in order, each with what the
    loop body reports for it alone. *)
Lemma main_report w args :
  report (main w args)
  = flat_map (scanned w (pypi_url args)) (snd (packages_to_check w args)).
Proof.
  pose proof (targets_log_silent w args) as S.
  unfold report, main.
  destruct (packages_to_check w args) as [lg targets]; simpl in *.
  destruct targets as [| t targets].
  - simpl. now rewrite report_of_app, S.
  - assert (E : forall st, run_log
      match vulnerable_packages st with
      | [] => {| run_log := log st; found := [];
                 printed := ["No potential dependency confusion vulnerabilities found."];
                 exit_status := 0 |}
      | v :: vs => {| run_log := log st; found := v :: vs;
                      printed := (newline ++ "Potential Dependency Confusion Vulnerabilities Found:")
                                 :: map print_vuln (v :: vs);
                      exit_status := 1 |}
      end = log st) by (intros st; destruct (vulnerable_packages st); auto).
    rewrite E, loop_log; simpl log.
    now rewrite report_of_app, S, report_of_flat_map.
Qed.

Lemma main_found w args :
  found (main w args)
  = flat_map (vuln_of w (pypi_url args)) (snd (packages_to_check w args)).
Proof.
  unfold main.
  destruct (packages_to_check w args) as [lg targets]; simpl.
  destruct targets as [| t targets]; [reflexivity |].
  set (st := fold_left _ (t :: targets) _).
  transitivity (vulnerable_packages st).
  - destruct (vulnerable_packages st); reflexivity.
  - unfold st. now rewrite loop_vulnerable.
Qed.

Lemma main_exit w args :
  exit_status (main w args) = if hasVulnerabilities (main w args) then 1 else 0.
Proof.
  unfold hasVulnerabilities, main.
  destruct (packages_to_check w args) as [lg targets].
  destruct targets as [| t targets]; [reflexivity |].
  destruct (vulnerable_packages _); reflexivity.
Qed.

Lemma count_app o a b : count o (a ++ b) = (count o a + count o b)%nat.
Proof.
  unfold count. now rewrite filter_app, length_app.
Qed.

(** As many [Confused] entries as entries of [vulnerable_packages]. *)
Lemma confused_found w args :
  count Confused (report (main w args)) = List.length (found (main w args)).
Proof.
  rewrite main_report, main_found.
  induction (snd (packages_to_check w args)) as [| it items IH]; simpl; auto.
  rewrite count_app, length_app, IH.
  destruct (scanned_one w (pypi_url args) it) as (o & _ & ->).
  reflexivity.
Qed.

Lemma count_pos_in o rep :
  (1 <= count o rep)%nat <-> exists n, In (n, o) rep.
Proof.
  unfold count. induction rep as [| [n o'] rep IH]; simpl.
  - split; [lia | intros [n []]].
  - destruct (Outcome_eqb o' o) eqn:E; simpl.
    + split; [| lia]. intros _. exists n. left.
      destruct o', o; try discriminate; reflexivity.
    + rewrite IH. split.
      * intros [m H]; eauto.
      * intros [m [H | H]]; [| eauto].
        inversion H; subst. destruct o; discriminate.
Qed.

(** The entry of the [i]-th target is the [i]-th entry of the report. *)
Lemma main_report_nth w args i it e :
  nth_error (snd (packages_to_check w args)) i = Some it ->
  scanned w (pypi_url args) it = [e] ->
  nth_error (report (main w args)) i = Some e.
Proof.
  rewrite main_report.
  generalize (snd (packages_to_check w args)) as items.
  induction i as [| i IH]; intros [| t items]; simpl; try discriminate.
  - intros H S; inversion H; subst. now rewrite S.
  - intros H S.
    destruct (scanned_one w (pypi_url args) t) as (o & -> & _); simpl.
    now apply IH.
Qed.

End MainFacts.

Module ReleaseFacts.

Import PyObj Order OrderFacts version Keys VersionFacts.

Lemma dropwhile_snoc l x :
  dropwhile_zero (l ++ [x]) =
  match dropwhile_zero l with
  | [] => if Z.eqb x 0 then [] else [x]
  | d => (d ++ [x])%list
  end.
Proof.
  induction l as [| a l IH]; simpl.
  - destruct (Z.eqb x 0); reflexivity.
  - destruct (Z.eqb a 0); [exact IH | reflexivity].
Qed.

Lemma stripped_cons x r :
  stripped (x :: r) =
  match stripped r with
  | [] => if Z.eqb x 0 then [] else [x]
  | s => x :: s
  end.
Proof.
  unfold stripped; simpl. rewrite dropwhile_snoc.
  destruct (dropwhile_zero (rev r)) as [| z d]; simpl.
  - destruct (Z.eqb x 0); reflexivity.
  - rewrite rev_unit. simpl.
    destruct (rev d ++ [z])%list eqn:E; [| reflexivity].
    apply app_eq_nil in E. destruct E; discriminate.
Qed.

Lemma pad_nil n : pad n [] = repeat 0 n.
Proof.
  unfold pad; simpl. now rewrite Nat.sub_0_r.
Qed.

Lemma padded_cons_cons x y r1 r2 :
  compare_padded (x :: r1) (y :: r2) =
  match Z.compare x y with
  | Eq => compare_padded r1 r2
  | c => c
  end.
Proof.
  reflexivity.
Qed.

Lemma padded_nil_cons y r2 :
  compare_padded [] (y :: r2) =
  match Z.compare 0 y with
  | Eq => compare_padded [] r2
  | c => c
  end.
Proof.
  unfold compare_padded; simpl Nat.max.
  rewrite !pad_nil. unfold pad; simpl.
  now rewrite Nat.sub_diag, app_nil_r.
Qed.

Lemma padded_cons_nil x r1 :
  compare_padded (x :: r1) [] =
  match Z.compare x 0 with
  | Eq => compare_padded r1 []
  | c => c
  end.
Proof.
  unfold compare_padded. rewrite !Nat.max_0_r.
  rewrite !pad_nil. unfold pad; simpl.
  now rewrite Nat.sub_diag, app_nil_r.
Qed.

Lemma lex_nil_l m : lex [] m = match m with [] => Eq | _ => Lt end.
Proof. destruct m; reflexivity. Qed.

Lemma lex_nil_r l : lex l [] = match l with [] => Eq | _ => Gt end.
Proof. destruct l; reflexivity. Qed.

Lemma padded_nil_l r :
  Forall (Z.le 0) r -> compare_padded [] r = lex [] (stripped r).
Proof.
  induction 1 as [| y r Hy _ IH]; [reflexivity |].
  rewrite padded_nil_cons, stripped_cons, IH, !lex_nil_l.
  destruct (Z.compare_spec 0 y) as [E | L | G]; [| | lia].
  - subst y; simpl. destruct (stripped r); reflexivity.
  - destruct (stripped r); [| reflexivity].
    destruct (Z.eqb_spec y 0); [lia | reflexivity].
Qed.

Lemma padded_nil_r r :
  Forall (Z.le 0) r -> compare_padded r [] = lex (stripped r) [].
Proof.
  induction 1 as [| x r Hx _ IH]; [reflexivity |].
  rewrite padded_cons_nil, stripped_cons, IH, !lex_nil_r.
  destruct (Z.compare_spec x 0) as [E | L | G]; [| lia |].
  - subst x; simpl. destruct (stripped r); reflexivity.
  - destruct (stripped r); [| reflexivity].
    destruct (Z.eqb_spec x 0); [lia | reflexivity].
Qed.

(** Dropping trailing zeros and comparing as tuples is comparing pairwise
    with zero padding. *)
Lemma stripped_padded r1 r2 :
  Forall (Z.le 0) r1 -> Forall (Z.le 0) r2 ->
  lex (stripped r1) (stripped r2) = compare_padded r1 r2.
Proof.
  intros H1; revert r2.
  induction H1 as [| x r1 Hx H1 IH]; intros r2 H2.
  - symmetry. now apply padded_nil_l.
  - destruct H2 as [| y r2 Hy H2].
    + symmetry. apply padded_nil_r. now constructor.
    + rewrite padded_cons_cons, <- (IH r2 H2), !stripped_cons.
      destruct (Z.compare_spec x y) as [E | L | G].
      * subst y.
        destruct (Z.eqb_spec x 0) as [Z0 | NZ].
        -- subst x.
           destruct (stripped r1), (stripped r2); simpl; reflexivity.
        -- destruct (stripped r1), (stripped r2); simpl;
             rewrite Z.compare_refl; reflexivity.
      * assert (Z.eqb y 0 = false) as -> by (apply Z.eqb_neq; lia).
        apply Z.compare_lt_iff in L.
        destruct (stripped r1), (stripped r2), (Z.eqb x 0);
          simpl; rewrite ?L; reflexivity.
      * assert (Z.eqb x 0 = false) as -> by (apply Z.eqb_neq; lia).
        apply Z.compare_gt_iff in G.
        destruct (stripped r1), (stripped r2), (Z.eqb y 0);
          simpl; rewrite ?G; reflexivity.
Qed.

(** Tuples of [int] compare by [lex]. *)
Lemma tuple_lex l m :
  py_eq (PyTuple (map PyInt l)) (PyTuple (map PyInt m)) = is_Eq (lex l m)
  /\ py_lt (PyTuple (map PyInt l)) (PyTuple (map PyInt m))
     = Some (is_Lt (lex l m))
  /\ py_gt (PyTuple (map PyInt l)) (PyTuple (map PyInt m))
     = Some (is_Gt (lex l m)).
Proof.
  unfold py_lt, py_gt.
  revert m; induction l as [| x l IH]; intros [| y m]; simpl; auto.
  destruct (IH m) as (E & L & G). simpl in E, L, G.
  destruct (Z.compare_spec x y) as [C | C | C].
  - subst y. rewrite Z.eqb_refl; simpl. auto.
  - assert (Z.eqb x y = false) as -> by (apply Z.eqb_neq; lia).
    simpl. repeat split; f_equal.
    + apply Z.ltb_lt; lia.
    + rewrite Z.gtb_ltb; apply Z.ltb_ge; lia.
  - assert (Z.eqb x y = false) as -> by (apply Z.eqb_neq; lia).
    simpl. repeat split; f_equal.
    + apply Z.ltb_ge; lia.
    + rewrite Z.gtb_ltb; apply Z.ltb_lt; lia.
Qed.

Lemma int_acc_nonneg s : forall a, 0 <= a -> 0 <= PyStr.int_acc a s.
Proof.
  induction s as [| c s IH]; intros a Ha; cbn [PyStr.int_acc]; [exact Ha |].
  apply IH. pose proof (Zle_0_nat (PyStr.ord c - 48)). lia.
Qed.

Lemma int_nonneg s : 0 <= PyStr.int s.
Proof.
  apply int_acc_nonneg. lia.
Qed.

(** Release segments of a parsed version are never negative. *)
Lemma parse_release_nonneg s v :
  parse s = ret v -> Forall (Z.le 0) (release (_version v)).
Proof.
  unfold parse, Version_init.
  destruct (Re.search _regex s) as [m |]; intros H; inversion H; simpl.
  destruct (Re.group "release" m) as [r |]; [| constructor].
  apply Forall_forall. intros z Hz.
  apply in_map_iff in Hz. destruct Hz as (x & <- & _). apply int_nonneg.
Qed.

Lemma py_cmp_cons op x y l m :
  py_cmp op (PyTuple (x :: l)) (PyTuple (y :: m))
  = if py_eq x y then py_cmp op (PyTuple l) (PyTuple m) else py_cmp op x y.
Proof. reflexivity. Qed.

Lemma py_eq_cons x y l m :
  py_eq (PyTuple (x :: l)) (PyTuple (y :: m))
  = (py_eq x y && py_eq (PyTuple l) (PyTuple m))%bool.
Proof. reflexivity. Qed.

(** With equal epochs, unequal padded releases decide the order. *)
Lemma release_decides a b :
  epoch a = epoch b ->
  Forall (Z.le 0) (release a) -> Forall (Z.le 0) (release b) ->
  match compare_padded (release a) (release b) with
  | Lt => py_lt (key_of a) (key_of b) = Some true
  | Gt => py_gt (key_of a) (key_of b) = Some true
  | Eq => True
  end.
Proof.
  intros E Ha Hb.
  rewrite <- (stripped_padded _ _ Ha Hb).
  destruct (tuple_lex (stripped (release a)) (stripped (release b)))
    as (Q & L & G).
  unfold key_of, _cmpkey, py_lt, py_gt in *.
  fold (stripped (release a)). fold (stripped (release b)).
  rewrite !py_cmp_cons. simpl (py_eq (PyInt _) (PyInt _)).
  rewrite E, Z.eqb_refl, Q.
  destruct (lex _ _); simpl; auto.
Qed.

(** With equal epochs and equal padded releases, the keys agree on their
    first two items. *)
Lemma release_equal a b :
  epoch a = epoch b ->
  Forall (Z.le 0) (release a) -> Forall (Z.le 0) (release b) ->
  compare_padded (release a) (release b) = Eq ->
  py_eq (PyInt (epoch a)) (PyInt (epoch b)) = true
  /\ py_eq (PyTuple (map PyInt (stripped (release a))))
           (PyTuple (map PyInt (stripped (release b)))) = true.
Proof.
  intros E Ha Hb C.
  rewrite <- (stripped_padded _ _ Ha Hb) in C.
  destruct (tuple_lex (stripped (release a)) (stripped (release b)))
    as (Q & _ & _).
  rewrite Q, C. simpl. rewrite E, Z.eqb_refl. auto.
Qed.

End ReleaseFacts.

(* ================================================================= *)
(** * The model at work *)

Module Scenarios.

Import version.

(** [str] built-ins. *)
Example splitlines_crlf :
  PyStr.splitlines ("a" ++ newline ++ "b" ++ String (ascii_of_nat 13) newline
                    ++ newline ++ "c" ++ newline)
  = ["a"; "b"; EmptyString; "c"].
Proof. reflexivity. Qed.

Example split_colon :
  PyStr.split ":" "Latest version: 1.5.0" = ["Latest version"; " 1.5.0"].
Proof. reflexivity. Qed.

Example latest_of_listing :
  snd (check_package_availability foo_newer "foo" "https://pypi.org/pypi/")
  = ret (Some "1.5.0").
Proof. vm_compute. reflexivity. Qed.

(** The version pattern. *)
Example parse_full :
  option_map _version
    (match parse " v1!2.0.0rc-3.post4.dev5+Ubuntu_12-b " with
     | ret v => Some v
     | raise _ => None
     end)
  = Some {| epoch := 1; release := [2; 0; 0];
            dev := Some ("dev", 5); pre := Some ("rc", 3);
            post := Some ("post", 4);
            local := Some [LStr "ubuntu"; LInt 12; LStr "b"] |}.
Proof. vm_compute. reflexivity. Qed.

Example parse_implicit_post :
  option_map (fun v => post (_version v))
    (match parse "1.0-1" with ret v => Some v | raise _ => None end)
  = Some (Some ("post", 1)).
Proof. vm_compute. reflexivity. Qed.

Example parse_rejects :
  parse "not-a-version" = raise (InvalidVersion "not-a-version")
  /\ parse EmptyString = raise (InvalidVersion EmptyString)
  /\ parse "1.0foo" = raise (InvalidVersion "1.0foo")
  /\ parse "1." = raise (InvalidVersion "1.").
Proof. repeat split; vm_compute; reflexivity. Qed.

(** The end-to-end scenarios of spec section 8. *)
Example scenario_newer :
  report (main foo_newer default_args) = [("foo", Confused)]
  /\ hasVulnerabilities (main foo_newer default_args) = true
  /\ exit_status (main foo_newer default_args) = 1.
Proof. repeat split; vm_compute; reflexivity. Qed.

Example scenario_older :
  report (main foo_older default_args) = [("foo", UpToDate)]
  /\ exit_status (main foo_older default_args) = 0.
Proof. repeat split; vm_compute; reflexivity. Qed.

Example scenario_mixed :
  report (main mixed_world default_args)
  = [("foo", Unparseable); ("bar", LookupFailed);
     ("baz", NotOnRegistry); ("qux", Confused)]
  /\ printed (main mixed_world default_args)
     = [newline ++ "Potential Dependency Confusion Vulnerabilities Found:";
        "  - Package: qux, Installed Version: 2.0.0, PyPI Version: 1.5.0"]
  /\ exit_status (main mixed_world default_args) = 1.
Proof. repeat split; vm_compute; reflexivity. Qed.

Example scenario_nonzero_exit :
  run_log (main (table_world [("bar", "1.0")]
                             [("bar", Ran {| returncode := 1;
                                             stdout := EmptyString |})])
                default_args)
  = [error_checking "bar" (CalledProcessError 1); error_failed "bar"].
Proof. vm_compute. reflexivity. Qed.

End Scenarios.

(* ================================================================= *)
(** * The claims *)

Module Claims.

Import version Keys Order VersionFacts ReleaseFacts ScanFacts MainFacts.

(** C1.  For a target whose local version and registry version both parse,
    the entry of the report is [Confused] when [local > registry] is true
    and [UpToDate] when it is false, and the comparison returns; the run
    has vulnerabilities exactly when some entry is [Confused]. *)
Theorem confused_iff_newer w args :
  (forall i name local registry lv rv,
      nth_error (targets w args) i = Some (name, Some local) ->
      lookup w args name = ret (Some registry) ->
      parse local = ret lv ->
      parse registry = ret rv ->
      exists newer,
        __gt__ lv rv = ret newer
        /\ nth_error (report (main w args)) i
           = Some (name, if newer then Confused else UpToDate))
  /\ (hasVulnerabilities (main w args) = true
      <-> exists name, In (name, Confused) (report (main w args))).
Proof.
  split.
  - intros i name local registry lv rv T L Pl Pr.
    destruct (gt_returns _ _ _ _ Pl Pr) as [newer G].
    exists newer; split; [exact G |].
    apply (main_report_nth w args i _ _ T).
    pose proof (try_package_present w (pypi_url args) name (Some local)
                  registry L) as H.
    rewrite (compare_both name local registry lv rv newer Pl Pr G) in H.
    destruct newer; destruct H as [-> _]; reflexivity.
  - rewrite <- count_pos_in, confused_found.
    unfold hasVulnerabilities.
    destruct (found (main w args)); simpl; split;
      (discriminate || lia || auto).
Qed.

Lemma confused_iff_newer_witness :
  nth_error (report (main foo_newer default_args)) 0%nat
  = Some ("foo", Confused)
  /\ nth_error (report (main foo_older default_args)) 0%nat
     = Some ("foo", UpToDate).
Proof.
  split.
  - destruct (proj1 (confused_iff_newer foo_newer default_args)
                0%nat "foo" "2.0.0" "1.5.0" _ _
                eq_refl eq_refl eq_refl eq_refl) as (newer & G & H).
    vm_compute in G. inversion G; subst newer. exact H.
  - destruct (proj1 (confused_iff_newer foo_older default_args)
                0%nat "foo" "1.0.0" "1.5.0" _ _
                eq_refl eq_refl eq_refl eq_refl) as (newer & G & H).
    vm_compute in G. inversion G; subst newer. exact H.
Defined.

(** C2, as the specification states it, fails.  In single-package mode
    the local version of "foo" is unknown; the registry has "1.5.0", which
    parses; the entry is [UpToDate], not [Unparseable]. *)
Lemma never_silently_safe_fails :
  nth_error (targets foo_newer foo_only) 0%nat = Some ("foo", None)
  /\ lookup foo_newer foo_only "foo" = ret (Some "1.5.0")
  /\ nth_error (report (main foo_newer foo_only)) 0%nat
     = Some ("foo", UpToDate)
  /\ ~ never_silently_safe.
Proof.
  split; [vm_compute; reflexivity |].
  split; [vm_compute; reflexivity |].
  split; [vm_compute; reflexivity |].
  intros H.
  specialize (H foo_newer foo_only 0%nat "foo" None "1.5.0"
                eq_refl eq_refl (or_introl eq_refl)).
  vm_compute in H. discriminate H.
Qed.

(** C2, amended.  For a package present on the registry: when the registry
    version fails to parse, or the local version is a non-empty string that
    fails to parse, the entry is [Unparseable]; when the local version is
    absent ([None] or the empty string, which line 138 treats alike) and
    the registry version parses, the entry is [UpToDate]. *)
Theorem unparseable_or_absent w args i name local registry :
  nth_error (targets w args) i = Some (name, local) ->
  lookup w args name = ret (Some registry) ->
  (((exists e, parse registry = raise e)
    \/ (exists s e, local = Some s /\ s <> EmptyString /\ parse s = raise e)) ->
   nth_error (report (main w args)) i = Some (name, Unparseable))
  /\ ((local = None \/ local = Some EmptyString) ->
      (exists rv, parse registry = ret rv) ->
      nth_error (report (main w args)) i = Some (name, UpToDate)).
Proof.
  intros T L.
  pose proof (try_package_present w (pypi_url args) name local registry L)
    as H.
  split.
  - intros [[e P] | (s & e & -> & N & P)];
      apply (main_report_nth w args i _ _ T).
    + destruct (compare_registry_fails name local registry e P) as [s C].
      rewrite C in H. destruct H as [-> _]. reflexivity.
    + assert (Ns : PyStr.nonempty s = true) by (destruct s; [congruence | reflexivity]).
      rewrite (compare_local_fails name s registry e Ns P) in H.
      destruct H as [-> _]. reflexivity.
  - intros A [rv P]. apply (main_report_nth w args i _ _ T).
    assert (F : truthy local = false) by (destruct A; subst; reflexivity).
    rewrite (compare_absent name local registry rv F P) in H.
    destruct H as [-> _]. reflexivity.
Qed.

Lemma unparseable_or_absent_witness :
  nth_error
    (report (main (table_world [("foo", "not-a-version")]
                               [("foo", pip_says "1.0.0")]) default_args))
    0%nat = Some ("foo", Unparseable)
  /\ nth_error (report (main foo_newer foo_only)) 0%nat
     = Some ("foo", UpToDate).
Proof.
  split.
  - apply (proj1 (unparseable_or_absent
                    (table_world [("foo", "not-a-version")]
                                 [("foo", pip_says "1.0.0")])
                    default_args 0%nat "foo" (Some "not-a-version") "1.0.0"
                    eq_refl eq_refl)).
    right. exists "not-a-version", (InvalidVersion "not-a-version").
    split; [reflexivity |]. split; [discriminate | reflexivity].
  - apply (proj2 (unparseable_or_absent
                    foo_newer foo_only
                    0%nat "foo" None "1.5.0" eq_refl eq_refl)).
    + left; reflexivity.
    + eexists; reflexivity.
Defined.

(** C3.  A run whose report has no [Confused] entry exits with status 0,
    and a run whose report has at least one exits with status 1, whatever
    else the report contains. *)
Theorem exit_status_by_confused w args :
  (count Confused (report (main w args)) = 0%nat ->
   exit_status (main w args) = 0)
  /\ ((1 <= count Confused (report (main w args)))%nat ->
      exit_status (main w args) = 1).
Proof.
  rewrite confused_found, main_exit. unfold hasVulnerabilities.
  destruct (found (main w args)); simpl; split; intros; (reflexivity || lia).
Qed.

Lemma exit_status_by_confused_witness :
  exit_status (main foo_older default_args) = 0
  /\ exit_status (main mixed_world default_args) = 1.
Proof.
  split.
  - apply (proj1 (exit_status_by_confused foo_older default_args)).
    reflexivity.
  - apply (proj2 (exit_status_by_confused mixed_world default_args)).
    vm_compute. lia.
Defined.

(** C4.  A target that the registry reports as not present gets the entry
    [NotOnRegistry], whatever its local version is. *)
Theorem not_on_registry_first w args i name local :
  nth_error (targets w args) i = Some (name, local) ->
  lookup w args name = ret None ->
  nth_error (report (main w args)) i = Some (name, NotOnRegistry).
Proof.
  intros T L. apply (main_report_nth w args i _ _ T).
  now destruct (try_package_not_present w (pypi_url args) name local L).
Qed.

Lemma not_on_registry_first_witness :
  nth_error
    (report (main (table_world
                     [("internal-lib", "not-a-version")]
                     [("internal-lib", Ran {| returncode := 0; stdout := EmptyString |})])
                  default_args)) 0%nat
  = Some ("internal-lib", NotOnRegistry).
Proof.
  apply (not_on_registry_first _ default_args 0%nat "internal-lib"
           (Some "not-a-version")); reflexivity.
Defined.

(** C5.  A run reports on every target, in order, and the entry of each is
    what the loop body yields for that target alone; a target whose lookup
    raises gets the entry [LookupFailed]. *)
Theorem scan_always_completes w args :
  report (main w args)
  = flat_map (scanned w (pypi_url args)) (targets w args)
  /\ map fst (report (main w args)) = map fst (targets w args)
  /\ (forall i name local e,
         nth_error (targets w args) i = Some (name, local) ->
         lookup w args name = raise e ->
         nth_error (report (main w args)) i = Some (name, LookupFailed)).
Proof.
  split; [apply main_report |]. split.
  - rewrite main_report. unfold targets.
    induction (snd (packages_to_check w args)) as [| it items IH];
      [reflexivity |].
    simpl. rewrite map_app, IH.
    destruct (scanned_one w (pypi_url args) it) as (o & -> & _). reflexivity.
  - intros i name local e T L. apply (main_report_nth w args i _ _ T).
    now destruct (try_package_lookup_raises w (pypi_url args) name local e L).
Qed.

Lemma scan_always_completes_witness :
  nth_error (report (main mixed_world default_args)) 1%nat
  = Some ("bar", LookupFailed).
Proof.
  apply (proj2 (proj2 (scan_always_completes mixed_world default_args))
           1%nat "bar" (Some "1.0") (OtherException "unreachable"));
    reflexivity.
Defined.

(** C6.  With nothing to check, the run ends at line 126: the report is
    empty, nothing is printed, there are no vulnerabilities and the exit
    status is 0. *)
Theorem empty_target_set w args :
  targets w args = [] ->
  report (main w args) = []
  /\ printed (main w args) = []
  /\ hasVulnerabilities (main w args) = false
  /\ exit_status (main w args) = 0.
Proof.
  intros T.
  assert (R : report (main w args) = []) by (now rewrite main_report; unfold targets in T; rewrite T).
  split; [exact R |].
  unfold hasVulnerabilities, main, targets in *.
  destruct (packages_to_check w args) as [lg ts]; simpl in T; subst ts.
  simpl. auto.
Qed.

Lemma empty_target_set_witness :
  report (main (table_world [] []) default_args) = []
  /\ printed (main (table_world [] []) default_args) = []
  /\ hasVulnerabilities (main (table_world [] []) default_args) = false
  /\ exit_status (main (table_world [] []) default_args) = 0.
Proof.
  apply (empty_target_set (table_world [] []) default_args). reflexivity.
Defined.

(** C10.  With a package name given by [-p], the only target is that name
    with no local version; nothing is added to [vulnerable_packages], no
    entry is [Confused], and the exit status is 0. *)
Theorem single_package_never_confused w name url v :
  name <> EmptyString ->
  let args := {| package := Some name; pypi_url := url; verbose := v |} in
  targets w args = [(name, None)]
  /\ found (main w args) = []
  /\ (forall n, ~ In (n, Confused) (report (main w args)))
  /\ exit_status (main w args) = 0.
Proof.
  intros N args.
  assert (T : targets w args = [(name, None)]).
  { unfold targets, packages_to_check; simpl.
    destruct name; [congruence | reflexivity]. }
  assert (F : found (main w args) = []).
  { rewrite main_found. fold (targets w args). rewrite T; simpl.
    now rewrite vuln_absent. }
  repeat split; auto.
  - intros n H.
    assert (C : (1 <= count Confused (report (main w args)))%nat)
      by (apply count_pos_in; eauto).
    rewrite confused_found, F in C. simpl in C. lia.
  - rewrite main_exit. unfold hasVulnerabilities. now rewrite F.
Qed.

Lemma single_package_never_confused_witness :
  found (main foo_newer foo_only) = []
  /\ exit_status (main foo_newer foo_only) = 0.
Proof.
  destruct (single_package_never_confused
              foo_newer "foo" "https://pypi.org/pypi/" false)
    as (_ & F & _ & E); [discriminate |].
  split; [exact F | exact E].
Defined.

(** C9, as the specification states it, fails.  When pip exits with
    status 0 and prints "garbage", the lookup returns [None], the result
    it also gives for empty output. *)
Lemma malformed_is_error_fails :
  snd (check_package_availability garbage_world "foo" (pypi_url foo_only))
  = ret None
  /\ snd (check_package_availability silent_world "foo" (pypi_url foo_only))
     = ret None
  /\ ~ malformed_is_error.
Proof.
  split; [vm_compute; reflexivity |].
  split; [vm_compute; reflexivity |].
  intros H.
  destruct (H garbage_world "foo" (pypi_url foo_only)
              {| returncode := 0; stdout := "garbage" |}
              eq_refl eq_refl eq_refl eq_refl) as [e E].
  vm_compute in E. discriminate E.
Qed.

(** C9, amended.  The lookup gives one of three results: [None], a version
    string, or an error.  It raises exactly when running the command
    raises (the command cannot be run, or exits with a non-zero status);
    a command that ran and whose output has no line with "Latest version"
    and a colon gives [None], be the output empty or not. *)
Theorem lookup_three_results w name url :
  (snd (check_package_availability w name url) = ret None
   \/ (exists v, snd (check_package_availability w name url) = ret (Some v))
   \/ (exists e, snd (check_package_availability w name url) = raise e))
  /\ (forall e,
         snd (check_package_availability w name url) = raise e
         <-> subprocess_run w (pip_command w name url) = raise e)
  /\ (forall p,
         subprocess_run w (pip_command w name url) = ret p ->
         latest_version (PyStr.splitlines (stdout p)) = None ->
         snd (check_package_availability w name url) = ret None).
Proof.
  unfold check_package_availability.
  destruct (subprocess_run w (pip_command w name url))
    as [p | e] eqn:R.
  - destruct (PyStr.nonempty (stdout p)) eqn:N; simpl.
    + split; [| split].
      * destruct (latest_version _); eauto.
      * intros e; split; discriminate.
      * intros q Q L. inversion Q; subst q. now rewrite L.
    + split; [auto | split].
      * intros e; split; discriminate.
      * reflexivity.
  - split; [| split].
    + destruct e; simpl; eauto.
    + intros e'.
      destruct e; simpl; split; intros H; inversion H; reflexivity.
    + discriminate.
Qed.

Lemma lookup_three_results_witness :
  snd (check_package_availability garbage_world "foo" (pypi_url foo_only))
  = ret None.
Proof.
  apply (proj2 (proj2 (lookup_three_results
                         garbage_world "foo" (pypi_url foo_only)))
           {| returncode := 0; stdout := "garbage" |});
    reflexivity.
Defined.

(** C8.  For parsed versions [a] and [b], the three comparisons [a < b],
    [a == b] and [a > b] all return, and exactly one of them is true. *)
Theorem version_order_total s t a b :
  parse s = ret a -> parse t = ret b ->
  exists lt gt,
    __lt__ a b = ret lt /\ __gt__ a b = ret gt
    /\ ((lt = true /\ __eq__ a b = false /\ gt = false)
        \/ (lt = false /\ __eq__ a b = true /\ gt = false)
        \/ (lt = false /\ __eq__ a b = false /\ gt = true)).
Proof.
  intros Pa Pb. unfold __lt__, __gt__, __eq__.
  rewrite (parse_key _ _ Pa), (parse_key _ _ Pb).
  destruct (key_trichotomy (_version a) (_version b))
    as [(L & E & G) | [(L & E & G) | (L & E & G)]];
    rewrite L, E, G; simpl; eauto 10.
Qed.

Lemma version_order_total_witness :
  exists a b,
    parse "1.0.0rc1" = ret a /\ parse "1.0.post2+local.7" = ret b
    /\ exists lt gt,
        __lt__ a b = ret lt /\ __gt__ a b = ret gt
        /\ ((lt = true /\ __eq__ a b = false /\ gt = false)
            \/ (lt = false /\ __eq__ a b = true /\ gt = false)
            \/ (lt = false /\ __eq__ a b = false /\ gt = true)).
Proof.
  eexists; eexists.
  split; [vm_compute; reflexivity |]. split; [vm_compute; reflexivity |].
  apply (version_order_total "1.0.0rc1" "1.0.post2+local.7");
    vm_compute; reflexivity.
Defined.

(** C7.  Releases are compared as if the shorter were padded with zeros:
    "1.0" equals "1.0.0" and "2" is less than "2.0.1"; a pre-release is
    less than the final release with the same segments, and
    "1.0.0a1" < "1.0.0b1" < "1.0.0rc1" < "1.0.0".  In general, for parsed
    versions of one epoch, an unequal padded comparison of the releases
    decides the order; when it is equal, two versions without qualifiers
    are equal, and a version with a pre-release qualifier is less than one
    with neither a pre-release nor a dev qualifier. *)
Theorem padding_and_prerelease_order :
  (exists a b,
      parse "1.0" = ret a /\ parse "1.0.0" = ret b /\ __eq__ a b = true)
  /\ (exists a b,
         parse "2" = ret a /\ parse "2.0.1" = ret b
         /\ __lt__ a b = ret true)
  /\ (exists a b c d,
         parse "1.0.0a1" = ret a /\ parse "1.0.0b1" = ret b
         /\ parse "1.0.0rc1" = ret c /\ parse "1.0.0" = ret d
         /\ __lt__ a b = ret true /\ __lt__ b c = ret true
         /\ __lt__ c d = ret true)
  /\ (forall s t a b,
         parse s = ret a -> parse t = ret b ->
         epoch (_version a) = epoch (_version b) ->
         match compare_padded (release (_version a))
                              (release (_version b)) with
         | Lt => __lt__ a b = ret true
         | Gt => __gt__ a b = ret true
         | Eq =>
             (plain (_version a) -> plain (_version b) ->
              __eq__ a b = true)
             /\ (pre (_version a) <> None ->
                 pre (_version b) = None -> dev (_version b) = None ->
                 __lt__ a b = ret true)
         end).
Proof.
  split; [| split; [| split]].
  - eexists; eexists.
    split; [vm_compute; reflexivity |]. split; vm_compute; reflexivity.
  - eexists; eexists.
    split; [vm_compute; reflexivity |]. split; vm_compute; reflexivity.
  - do 4 eexists.
    repeat (split; [vm_compute; reflexivity |]). vm_compute; reflexivity.
  - intros s t a b Pa Pb E.
    pose proof (parse_release_nonneg _ _ Pa) as Na.
    pose proof (parse_release_nonneg _ _ Pb) as Nb.
    pose proof (release_decides (_version a) (_version b) E Na Nb) as D.
    unfold __lt__, __gt__, __eq__.
    rewrite (parse_key _ _ Pa), (parse_key _ _ Pb).
    destruct (compare_padded _ _) eqn:C.
    + destruct (release_equal _ _ E Na Nb C) as [Q1 Q2]. split.
      * intros (pa & qa & da & la) (pb & qb & db & lb).
        unfold key_of, _cmpkey.
        fold (stripped (release (_version a))).
        fold (stripped (release (_version b))).
        rewrite pa, qa, da, la, pb, qb, db, lb.
        rewrite !py_eq_cons, Q1, Q2. reflexivity.
      * intros Hpre Hb Hdev.
        unfold key_of, _cmpkey, PyObj.py_lt.
        fold (stripped (release (_version a))).
        fold (stripped (release (_version b))).
        rewrite !py_cmp_cons, Q1, Q2.
        destruct (pre (_version a)) as [p |]; [| congruence].
        rewrite Hb, Hdev.
        destruct (post (_version b)); reflexivity.
    + now rewrite D.
    + now rewrite D.
Qed.

Lemma padding_and_prerelease_order_witness :
  exists a b,
    parse "3.1rc2" = ret a /\ parse "3.1.0.0" = ret b
    /\ __lt__ a b = ret true.
Proof.
  eexists; eexists.
  split; [vm_compute; reflexivity |]. split; [vm_compute; reflexivity |].
  pose proof (proj2 (proj2 (proj2 padding_and_prerelease_order))
                "3.1rc2" "3.1.0.0" _ _ eq_refl eq_refl eq_refl) as H.
  vm_compute in H.
  apply H; [discriminate | reflexivity | reflexivity].
Defined.

End Claims.

(* ================================================================= *)
(** * Further properties of the program *)

Module DictFacts.

Lemma dict_get_set {V} (k k' : string) (v : V) (d : dict V) :
  dict_get k' (dict_set k v d)
  = if String.eqb k k' then Some v else dict_get k' d.
Proof.
  induction d as [| [k0 v0] d IH]; simpl.
  - reflexivity.
  - destruct (String.eqb_spec k0 k) as [-> | N]; simpl.
    + destruct (String.eqb k k'); reflexivity.
    + rewrite IH.
      destruct (String.eqb_spec k0 k') as [-> | N'];
        [| reflexivity].
      destruct (String.eqb_spec k k') as [-> | _]; [congruence | reflexivity].
Qed.

Lemma dict_set_keys {V} (k k' : string) (v : V) (d : dict V) :
  In k' (map fst (dict_set k v d)) <-> k' = k \/ In k' (map fst d).
Proof.
  induction d as [| [k0 v0] d IH]; simpl.
  - intuition.
  - destruct (String.eqb_spec k0 k) as [-> | N]; simpl.
    + intuition.
    + rewrite IH. intuition.
Qed.

Lemma dict_set_nodup {V} (k : string) (v : V) (d : dict V) :
  NoDup (map fst d) -> NoDup (map fst (dict_set k v d)).
Proof.
  induction d as [| [k0 v0] d IH]; simpl; intros H.
  - constructor; [intros [] | constructor].
  - inversion H as [| ? ? Hn Hd]; subst.
    destruct (String.eqb_spec k0 k) as [-> | N]; simpl.
    + constructor; assumption.
    + constructor; [| auto].
      rewrite dict_set_keys. intros [E | I]; [congruence | contradiction].
Qed.

Lemma collect_snoc dists d :
  collect (dists ++ [d]) = dict_set (fst d) (snd d) (collect dists).
Proof.
  unfold collect. now rewrite fold_left_app.
Qed.

End DictFacts.

Module LookupFacts.

Import PyStr.

Lemma prefix_empty s : String.prefix EmptyString s = true.
Proof. destruct s; reflexivity. Qed.

(** [c in s] for a single character. *)
Lemma contains_char_nil c : contains (one c) EmptyString = false.
Proof. reflexivity. Qed.

Lemma contains_char_cons c d s :
  contains (one c) (String d s)
  = (Ascii.eqb d c || contains (one c) s)%bool.
Proof.
  unfold one. simpl.
  destruct (ascii_dec c d) as [-> | N].
  - now rewrite prefix_empty, Ascii.eqb_refl.
  - destruct (Ascii.eqb_spec d c) as [-> | _]; [congruence | reflexivity].
Qed.

Lemma contains_char_app c a b :
  contains (one c) (a ++ b)
  = (contains (one c) a || contains (one c) b)%bool.
Proof.
  induction a as [| d a IH].
  - reflexivity.
  - change (String d a ++ b) with (String d (a ++ b)).
    rewrite !contains_char_cons, IH. now rewrite orb_assoc.
Qed.

Lemma append_assoc (a b c : string) : (a ++ b) ++ c = a ++ (b ++ c).
Proof.
  induction a as [| x a IH]; simpl; [reflexivity | now rewrite IH].
Qed.

Lemma append_nil_r (a : string) : a ++ EmptyString = a.
Proof.
  induction a as [| x a IH]; simpl; [reflexivity | now rewrite IH].
Qed.

(** [split]: as many parts as separators, plus one. *)
Lemma split_acc_cons sep cur s :
  exists h t, split_acc sep cur s = h :: t.
Proof.
  revert cur; induction s as [| c s IH]; intros cur; simpl; eauto.
  destruct (Ascii.eqb c sep); eauto.
Qed.

Lemma split_more_than_one sep cur s :
  Nat.ltb 1 (List.length (split_acc sep cur s)) = contains (one sep) s.
Proof.
  revert cur; induction s as [| c s IH]; intros cur.
  - reflexivity.
  - rewrite contains_char_cons. simpl.
    destruct (Ascii.eqb c sep); simpl; [| apply IH].
    destruct (split_acc_cons sep EmptyString s) as (h & t & ->).
    reflexivity.
Qed.

Lemma split_parts_clean sep cur s :
  contains (one sep) cur = false ->
  Forall (fun part => contains (one sep) part = false)
         (split_acc sep cur s).
Proof.
  revert cur; induction s as [| c s IH]; intros cur H; simpl.
  - constructor; [exact H | constructor].
  - destruct (Ascii.eqb c sep) eqn:E.
    + constructor; [exact H | now apply IH].
    + apply IH. rewrite contains_char_app, H, contains_char_cons, E.
      reflexivity.
Qed.

(** The part before the first separator. *)
Lemma split_acc_field sep cur a s :
  contains (one sep) a = false ->
  split_acc sep cur (a ++ String sep s)
  = (cur ++ a) :: split_acc sep EmptyString s.
Proof.
  revert cur; induction a as [| c a IH]; intros cur H.
  - simpl. now rewrite Ascii.eqb_refl, append_nil_r.
  - rewrite contains_char_cons in H. apply orb_false_elim in H.
    destruct H as [E H]. simpl. rewrite E, (IH _ H).
    now rewrite append_assoc.
Qed.

Lemma split_acc_last sep cur a :
  contains (one sep) a = false ->
  split_acc sep cur a = [cur ++ a].
Proof.
  revert cur; induction a as [| c a IH]; intros cur H.
  - simpl. now rewrite append_nil_r.
  - rewrite contains_char_cons in H. apply orb_false_elim in H.
    destruct H as [E H]. simpl. rewrite E, (IH _ H).
    now rewrite append_assoc.
Qed.

(** [strip]: nothing left to strip, and no character gained. *)
Lemma rstrip_idem s : rstrip (rstrip s) = rstrip s.
Proof.
  induction s as [| c s IH]; [reflexivity |].
  simpl. destruct (rstrip s) as [| d r] eqn:R.
  - destruct (isspace c) eqn:W; [reflexivity |].
    simpl. now rewrite W.
  - cbn [rstrip]. fold rstrip. simpl in IH. rewrite IH. reflexivity.
Qed.

Lemma lstrip_idem s : lstrip (lstrip s) = lstrip s.
Proof.
  induction s as [| c s IH]; [reflexivity |].
  simpl. destruct (isspace c) eqn:W; [exact IH |].
  simpl. now rewrite W.
Qed.

Lemma lstrip_length s : (String.length (lstrip s) <= String.length s)%nat.
Proof.
  induction s as [| c s IH]; simpl; [lia |].
  destruct (isspace c); simpl; lia.
Qed.

Lemma lstrip_rstrip t : lstrip t = t -> lstrip (rstrip t) = rstrip t.
Proof.
  destruct t as [| c s]; [reflexivity |].
  intros H. simpl in H.
  destruct (isspace c) eqn:W.
  - pose proof (lstrip_length s) as L. rewrite H in L. simpl in L. lia.
  - simpl. destruct (rstrip s); rewrite ?W; simpl; rewrite ?W; reflexivity.
Qed.

Lemma strip_idem s : strip (strip s) = strip s.
Proof.
  unfold strip.
  rewrite (lstrip_rstrip (lstrip s) (lstrip_idem s)).
  apply rstrip_idem.
Qed.

Lemma lstrip_clean c s :
  contains (one c) s = false -> contains (one c) (lstrip s) = false.
Proof.
  induction s as [| d s IH]; [reflexivity |].
  intros H. simpl. destruct (isspace d); [| exact H].
  rewrite contains_char_cons in H. apply orb_false_elim in H.
  now apply IH.
Qed.

Lemma rstrip_clean c s :
  contains (one c) s = false -> contains (one c) (rstrip s) = false.
Proof.
  induction s as [| d s IH]; [reflexivity |].
  intros H. rewrite contains_char_cons in H. apply orb_false_elim in H.
  destruct H as [E H]. specialize (IH H). simpl.
  destruct (rstrip s) as [| x r].
  - destruct (isspace d); [reflexivity |].
    now rewrite contains_char_cons, E.
  - now rewrite contains_char_cons, E, IH.
Qed.

Lemma strip_clean c s :
  contains (one c) s = false -> contains (one c) (strip s) = false.
Proof.
  intros H. unfold strip. now apply rstrip_clean, lstrip_clean.
Qed.

Lemma splitlines_empty : splitlines EmptyString = [].
Proof. reflexivity. Qed.

(** The loop of lines 75-79. *)
Lemma latest_version_clean lines v :
  latest_version lines = Some v ->
  contains ":" v = false /\ strip v = v.
Proof.
  induction lines as [| line rest IH]; simpl; [discriminate |].
  destruct (contains "Latest version" line); [| exact IH].
  destruct (Nat.ltb 1 (List.length (split ":" line))); [| exact IH].
  intros H; inversion H; subst v. split.
  - apply (strip_clean ":"%char).
    pose proof (split_parts_clean ":"%char EmptyString line eq_refl) as F.
    fold (split ":" line) in F. rewrite Forall_forall in F.
    destruct (nth_in_or_default 1 (split ":" line) EmptyString) as [I | ->];
      [now apply F | reflexivity].
  - apply strip_idem.
Qed.

Lemma latest_version_none lines :
  latest_version lines = None <-> Forall passed_over lines.
Proof.
  induction lines as [| line rest IH]; simpl.
  - split; [constructor | reflexivity].
  - unfold split. rewrite split_more_than_one.
    change (one ":"%char) with ":".
    destruct (contains "Latest version" line) eqn:L.
    + destruct (contains ":" line) eqn:C.
      * split; [discriminate |].
        intros F; inversion F as [| ? ? [P | P] _]; congruence.
      * rewrite IH. split.
        -- intros F; constructor; [now right | exact F].
        -- intros F; now inversion F.
    + rewrite IH. split.
      * intros F; constructor; [now left | exact F].
      * intros F; now inversion F.
Qed.

Lemma latest_version_skip pre lines :
  Forall passed_over pre ->
  latest_version (pre ++ lines) = latest_version lines.
Proof.
  induction 1 as [| line pre P _ IH]; [reflexivity |].
  simpl. unfold split. rewrite split_more_than_one.
  change (one ":"%char) with ":".
  destruct P as [-> | ->]; [exact IH |].
  destruct (contains "Latest version" line); exact IH.
Qed.

Lemma latest_version_field a b rest post :
  contains "Latest version" (a ++ ":" ++ b ++ rest) = true ->
  contains ":" a = false -> contains ":" b = false ->
  rest = EmptyString \/ (exists r, rest = ":" ++ r) ->
  latest_version ((a ++ ":" ++ b ++ rest) :: post) = Some (strip b).
Proof.
  intros L A B R.
  set (line := a ++ ":" ++ b ++ rest) in *.
  cbn [latest_version]. rewrite L.
  unfold split, line.
  change (a ++ ":" ++ b ++ rest) with (a ++ String ":"%char (b ++ rest)).
  rewrite (split_acc_field ":"%char EmptyString a (b ++ rest) A).
  destruct R as [-> | [r ->]].
  - rewrite append_nil_r, (split_acc_last ":"%char EmptyString b B).
    reflexivity.
  - change (b ++ ":" ++ r) with (b ++ String ":"%char r).
    rewrite (split_acc_field ":"%char EmptyString b r B).
    destruct (split_acc_cons ":"%char EmptyString r) as (h & t & ->).
    reflexivity.
Qed.

End LookupFacts.

Module RunFacts.

Import version Keys Order OrderFacts VersionFacts ScanFacts MainFacts.
Import DictFacts.

Lemma py_eq_refl : forall a, PyObj.py_eq a a = true.
Proof.
  fix IH 1. intros [z | s | l | |]; simpl; auto.
  - apply Z.eqb_refl.
  - apply String.eqb_refl.
  - induction l as [| x l IHl]; [reflexivity |].
    now rewrite (IH x), IHl.
Qed.

(** When [==] holds between two keys, [>] is false. *)
Lemma eq_not_gt a b :
  PyObj.py_eq (key_of a) (key_of b) = true ->
  PyObj.py_gt (key_of a) (key_of b) = Some false.
Proof.
  intros E.
  destruct (key_trichotomy a b) as [(_ & Q & _) | [(_ & _ & G) | (_ & Q & _)]];
    congruence.
Qed.

Lemma main_names w args :
  map fst (report (main w args)) = map fst (targets w args).
Proof.
  rewrite main_report. unfold targets.
  induction (snd (packages_to_check w args)) as [| it items IH];
    [reflexivity |].
  simpl. rewrite map_app, IH.
  destruct (scanned_one w (pypi_url args) it) as (o & -> & _). reflexivity.
Qed.

Lemma collect_nodup dists : NoDup (map fst (collect dists)).
Proof.
  induction dists as [| d dists IH] using rev_ind; [constructor |].
  rewrite collect_snoc. now apply dict_set_nodup.
Qed.

Lemma targets_nodup w args : NoDup (map fst (targets w args)).
Proof.
  unfold targets, packages_to_check, get_installed_packages.
  destruct (truthy (package args)).
  - destruct (package args); simpl; repeat constructor. intros [].
  - destruct (working_set w) as [dists | e]; simpl; [| constructor].
    rewrite map_map. simpl. apply collect_nodup.
Qed.

Lemma main_log w args :
  targets w args <> [] ->
  run_log (main w args)
  = (fst (packages_to_check w args)
     ++ flat_map (fun it => fst (try_package w (pypi_url args)
                                             (fst it) (snd it)))
                 (targets w args))%list.
Proof.
  unfold targets, main.
  destruct (packages_to_check w args) as [lg ts]; simpl.
  destruct ts as [| t ts]; [congruence |]. intros _.
  set (st := fold_left _ (t :: ts) _).
  transitivity (log st).
  - destruct (vulnerable_packages st); reflexivity.
  - unfold st. now rewrite loop_log.
Qed.

(** What it takes for [compare_versions] to flag a package. *)
Lemma compare_flags n iv pv r x :
  compare_versions n iv pv = ret (r, Some x) ->
  exists s lv rv,
    iv = Some s /\ parse s = ret lv /\ parse pv = ret rv
    /\ __gt__ lv rv = ret true
    /\ x = {| v_package := n; v_installed_version := s;
              v_pypi_version := pv |}
    /\ r = warn_confusion n s pv.
Proof.
  unfold compare_versions.
  destruct (truthy iv) eqn:T; simpl.
  - destruct iv as [s |]; [| discriminate]; simpl.
    destruct (parse s) as [lv | e] eqn:P; simpl; [| discriminate].
    destruct (parse pv) as [rv | e] eqn:Q; simpl; [| discriminate].
    destruct (__gt__ lv rv) as [[|] | e] eqn:G; simpl;
      intros H; inversion H; subst.
    exists s, lv, rv. auto 10.
  - destruct (parse pv); simpl; discriminate.
Qed.

Lemma vuln_of_sound w u n iv x :
  In x (vuln_of w u (n, iv)) ->
  exists s pv lv rv,
    iv = Some s
    /\ snd (check_package_availability w n u) = ret (Some pv)
    /\ parse s = ret lv /\ parse pv = ret rv
    /\ __gt__ lv rv = ret true
    /\ x = {| v_package := n; v_installed_version := s;
              v_pypi_version := pv |}.
Proof.
  destruct (snd (check_package_availability w n u)) as [[pv |] | e] eqn:L.
  - pose proof (try_package_present w u n iv pv L) as H.
    destruct (compare_versions n iv pv) as [[r [y |]] | e] eqn:C.
    + destruct H as [_ ->]. intros [<- | []].
      destruct (compare_flags _ _ _ _ _ C) as (s & lv & rv & ? & ? & ? & ? & ? & _).
      exists s, pv, lv, rv. auto 10.
    + destruct H as [_ ->]. intros [].
    + destruct H as [_ ->]. intros [].
  - destruct (try_package_not_present w u n iv L) as [_ ->]. intros [].
  - destruct (try_package_lookup_raises w u n iv e L) as [_ ->]. intros [].
Qed.

Lemma item_names w u it :
  map v_package (vuln_of w u it) = confused_names (scanned w u it).
Proof.
  destruct it as [n iv].
  destruct (snd (check_package_availability w n u)) as [[pv |] | e] eqn:L.
  - pose proof (try_package_present w u n iv pv L) as H.
    pose proof (compare_outcomes n iv pv) as O.
    destruct (compare_versions n iv pv) as [[r [y |]] | e] eqn:C.
    + destruct H as [-> ->].
      destruct (compare_flags _ _ _ _ _ C)
        as (s & lv & rv & _ & _ & _ & _ & -> & ->).
      reflexivity.
    + destruct H as [-> ->].
      destruct O as [(s & y & _ & ?) | [-> _]]; [discriminate | reflexivity].
    + destruct H as [-> ->].
      destruct O as [-> | [s ->]]; reflexivity.
  - destruct (try_package_not_present w u n iv L) as [-> ->]. reflexivity.
  - destruct (try_package_lookup_raises w u n iv e L) as [-> ->]. reflexivity.
Qed.

Lemma confused_names_app a b :
  confused_names (a ++ b) = (confused_names a ++ confused_names b)%list.
Proof.
  unfold confused_names. now rewrite filter_app, map_app.
Qed.

(** The loop body asks the world one thing: the result of one command. *)
Lemma try_package_ext w1 w2 u n iv :
  run_process w1 (pip_command w1 n u) = run_process w2 (pip_command w2 n u) ->
  try_package w1 u n iv = try_package w2 u n iv.
Proof.
  intros H.
  unfold try_package, check_package_availability, subprocess_run.
  now rewrite H.
Qed.

Lemma loop_ext w1 w2 u items st :
  (forall n, In n (map fst items) ->
             run_process w1 (pip_command w1 n u)
             = run_process w2 (pip_command w2 n u)) ->
  fold_left (loop_body w1 u) items st = fold_left (loop_body w2 u) items st.
Proof.
  revert st; induction items as [| it items IH]; intros st H;
    [reflexivity |].
  simpl. unfold loop_body at 2 4.
  rewrite (try_package_ext w1 w2 u (fst it) (snd it));
    [| apply H; now left].
  apply IH. intros n I. apply H. now right.
Qed.

End RunFacts.

Module Extra.

Import version Keys Order VersionFacts ReleaseFacts ScanFacts MainFacts.
Import DictFacts LookupFacts RunFacts.

Lemma installed_is_collect w dists :
  working_set w = ret dists ->
  snd (get_installed_packages w) = collect dists.
Proof.
  unfold get_installed_packages. now intros ->.
Qed.

(** X1.  The dictionary of installed packages has each key once, and its
    keys are exactly the keys of the distributions enumerated. *)
Theorem installed_keys_unique w dists :
  working_set w = ret dists ->
  NoDup (map fst (snd (get_installed_packages w)))
  /\ (forall k, In k (map fst (snd (get_installed_packages w)))
                <-> In k (map fst dists)).
Proof.
  intros W. rewrite (installed_is_collect w dists W). clear W.
  induction dists as [| d dists IH] using rev_ind.
  - split; [constructor | reflexivity].
  - destruct IH as [N K]. rewrite collect_snoc. split.
    + now apply dict_set_nodup.
    + intros k. rewrite dict_set_keys, K, map_app, in_app_iff. simpl.
      intuition.
Qed.

Lemma installed_keys_unique_witness :
  NoDup (map fst (snd (get_installed_packages twice_world))).
Proof.
  apply (proj1 (installed_keys_unique twice_world
                  [("foo", "1.0"); ("bar", "2.0"); ("foo", "3.0")]
                  eq_refl)).
Defined.

(** X2.  When a key is enumerated more than once, the dictionary holds the
    version of its last distribution: looking a key up in the dictionary
    is looking it up in the distributions read backwards. *)
Theorem installed_last_wins w dists k :
  working_set w = ret dists ->
  dict_get k (snd (get_installed_packages w)) = dict_get k (rev dists).
Proof.
  intros W. rewrite (installed_is_collect w dists W). clear W.
  induction dists as [| d dists IH] using rev_ind; [reflexivity |].
  rewrite collect_snoc, dict_get_set, rev_unit, IH.
  destruct d as [k0 v0]. reflexivity.
Qed.

Lemma installed_last_wins_witness :
  dict_get "foo" (snd (get_installed_packages twice_world)) = Some "3.0".
Proof.
  exact (installed_last_wins twice_world
           [("foo", "1.0"); ("bar", "2.0"); ("foo", "3.0")] "foo" eq_refl).
Defined.

(** X3.  When no package is named and enumerating the installed
    distributions raises, the run logs that error and "no packages",
    prints nothing, looks nothing up and exits with status 0. *)
Theorem enumeration_failure_exits_zero w args e :
  truthy (package args) = false ->
  working_set w = raise e ->
  main w args
  = {| run_log := [error_installed e; warn_no_packages];
       found := []; printed := []; exit_status := 0 |}.
Proof.
  intros T W.
  unfold main, packages_to_check, get_installed_packages.
  rewrite T, W. reflexivity.
Qed.

Lemma enumeration_failure_exits_zero_witness :
  exit_status (main broken_world default_args) = 0.
Proof.
  rewrite (enumeration_failure_exits_zero broken_world default_args
             (OtherException "broken") eq_refl eq_refl).
  reflexivity.
Defined.

(** X4.  A version returned by the lookup has no colon in it and no
    white space at either end. *)
Theorem lookup_version_clean w name url v :
  snd (check_package_availability w name url) = ret (Some v) ->
  PyStr.contains ":" v = false /\ PyStr.strip v = v.
Proof.
  unfold check_package_availability.
  destruct (subprocess_run w (pip_command w name url)) as [p | e].
  - destruct (PyStr.nonempty (stdout p)); simpl; [| discriminate].
    intros H; inversion H as [L]. now apply latest_version_clean in L.
  - destruct e; discriminate.
Qed.

Lemma lookup_version_clean_witness :
  PyStr.contains ":" "1.5.0" = false /\ PyStr.strip "1.5.0" = "1.5.0".
Proof.
  apply (lookup_version_clean foo_newer "foo" "https://pypi.org/pypi/").
  vm_compute. reflexivity.
Defined.

(** X5.  When the command ran with status 0, the lookup returns [None]
    exactly when every line of the output lacks "Latest version" or lacks
    a colon; empty output is one such case. *)
Theorem lookup_none_iff w name url p :
  subprocess_run w (pip_command w name url) = ret p ->
  (snd (check_package_availability w name url) = ret None
   <-> Forall passed_over (PyStr.splitlines (stdout p))).
Proof.
  intros R. unfold check_package_availability. rewrite R.
  destruct (PyStr.nonempty (stdout p)) eqn:N; simpl.
  - rewrite <- latest_version_none. split.
    + intros H; now inversion H.
    + now intros ->.
  - destruct (stdout p); [| discriminate].
    split; [constructor | reflexivity].
Qed.

Lemma lookup_none_iff_witness :
  snd (check_package_availability garbage_world "foo" "u") = ret None.
Proof.
  apply (proj2 (lookup_none_iff garbage_world "foo" "u"
                  {| returncode := 0; stdout := "garbage" |} eq_refl)).
  repeat constructor.
Defined.

(** X6.  The first line that has both "Latest version" and a colon
    decides, and later lines are not read: the lookup returns the text
    between the first colon of that line and the next colon or the end of
    the line, stripped, wherever in the line "Latest version" stands. *)
Theorem lookup_first_match w name url p pre a b rest post :
  subprocess_run w (pip_command w name url) = ret p ->
  PyStr.splitlines (stdout p)
  = List.app pre ((a ++ ":" ++ b ++ rest) :: post) ->
  Forall passed_over pre ->
  PyStr.contains "Latest version" (a ++ ":" ++ b ++ rest) = true ->
  PyStr.contains ":" a = false ->
  PyStr.contains ":" b = false ->
  rest = EmptyString \/ (exists r, rest = ":" ++ r) ->
  snd (check_package_availability w name url) = ret (Some (PyStr.strip b)).
Proof.
  intros R S P L A B T. unfold check_package_availability. rewrite R.
  destruct (PyStr.nonempty (stdout p)) eqn:N; simpl.
  - rewrite S, (latest_version_skip pre _ P).
    now rewrite (latest_version_field a b rest post L A B T).
  - destruct (stdout p); [| discriminate].
    rewrite splitlines_empty in S. now destruct pre.
Qed.

Lemma lookup_first_match_witness :
  snd (check_package_availability
         two_answers_world "foo" "u")
  = ret (Some "2.0 Latest version").
Proof.
  apply (lookup_first_match two_answers_world "foo" "u" {| returncode := 0; stdout := two_answers |}
           [] "note" " 2.0 Latest version" EmptyString
           ["see: 3.1 :Latest version: 9.9"; "Latest version: 1.5.0"]);
    try reflexivity.
  - constructor.
  - now left.
Defined.

(** X7.  A command that exits with a non-zero status makes its package
    [LookupFailed] whatever it printed, and the failure is logged as an
    error twice: by the lookup (line 85) and by the loop (line 155). *)
Theorem nonzero_exit_fails_lookup w args i name local p :
  nth_error (targets w args) i = Some (name, local) ->
  run_process w (pip_command w name (pypi_url args)) = Ran p ->
  returncode p <> 0 ->
  nth_error (report (main w args)) i = Some (name, LookupFailed)
  /\ In (error_checking name (CalledProcessError (returncode p)))
        (run_log (main w args))
  /\ In (error_failed name) (run_log (main w args)).
Proof.
  intros T R N.
  assert (Z0 : Z.eqb (returncode p) 0 = false) by now apply Z.eqb_neq.
  assert (L : snd (check_package_availability w name (pypi_url args))
              = raise (CalledProcessError (returncode p))).
  { unfold check_package_availability, subprocess_run.
    now rewrite R, Z0. }
  assert (G : fst (try_package w (pypi_url args) name local)
              = [error_checking name (CalledProcessError (returncode p));
                 error_failed name]).
  { unfold try_package, check_package_availability, subprocess_run.
    now rewrite R, Z0. }
  split.
  - apply (main_report_nth w args i _ _ T).
    now destruct (try_package_lookup_raises w (pypi_url args) name local _ L).
  - assert (NE : targets w args <> []) by (destruct (targets w args), i; discriminate).
    rewrite (main_log w args NE).
    split; apply in_or_app; right; apply in_flat_map;
      exists (name, local); (split; [now apply (nth_error_In _ i) |]);
      simpl; rewrite G; simpl; auto.
Qed.

Lemma nonzero_exit_fails_lookup_witness :
  nth_error (report (main failing_world default_args)) 0%nat
  = Some ("foo", LookupFailed).
Proof.
  apply (nonzero_exit_fails_lookup failing_world default_args 0%nat "foo"
           (Some "2.0.0")
           {| returncode := 1; stdout := "Latest version: 1.5.0" |});
    [reflexivity | reflexivity | discriminate].
Defined.

(** X8.  No package is reported twice: the names in the report are those
    of the targets, in order, and they are pairwise distinct. *)
Theorem report_names_distinct w args :
  map fst (report (main w args)) = map fst (targets w args)
  /\ NoDup (map fst (report (main w args))).
Proof.
  split; [apply main_names |].
  rewrite main_names. apply targets_nodup.
Qed.

(** X9.  Every entry of [vulnerable_packages] is backed by the scan: its
    package is a target with that installed version, the lookup returned
    that registry version, both parse, and the installed one is greater. *)
Theorem found_is_sound w args x :
  In x (found (main w args)) ->
  In (v_package x, Some (v_installed_version x)) (targets w args)
  /\ lookup w args (v_package x) = ret (Some (v_pypi_version x))
  /\ exists lv rv,
       parse (v_installed_version x) = ret lv
       /\ parse (v_pypi_version x) = ret rv
       /\ __gt__ lv rv = ret true.
Proof.
  rewrite main_found. intros H. apply in_flat_map in H.
  destruct H as ([n iv] & T & V).
  destruct (vuln_of_sound _ _ _ _ _ V)
    as (s & pv & lv & rv & -> & L & P & Q & G & ->).
  simpl. repeat split; eauto.
Qed.

Lemma found_is_sound_witness :
  lookup foo_newer default_args "foo" = ret (Some "1.5.0").
Proof.
  apply (found_is_sound foo_newer default_args
           {| v_package := "foo"; v_installed_version := "2.0.0";
              v_pypi_version := "1.5.0" |}).
  vm_compute. auto.
Defined.

(** X10.  The packages listed in [vulnerable_packages] are the packages
    whose entry is [Confused], in the order of the scan. *)
Theorem found_names_are_confused w args :
  map v_package (found (main w args))
  = confused_names (report (main w args)).
Proof.
  rewrite main_found, main_report.
  induction (snd (packages_to_check w args)) as [| it items IH];
    [reflexivity |].
  simpl. now rewrite map_app, confused_names_app, item_names, IH.
Qed.

(** X11.  What a run prints has one of three shapes: nothing when there
    is nothing to check; the single line "No potential ..." when no
    package is [Confused]; otherwise the header followed by one line per
    entry of [vulnerable_packages], as many as there are [Confused]
    entries. *)
Theorem printed_shapes w args :
  (targets w args = [] -> printed (main w args) = [])
  /\ (targets w args <> [] ->
      count Confused (report (main w args)) = 0%nat ->
      printed (main w args)
      = ["No potential dependency confusion vulnerabilities found."])
  /\ ((1 <= count Confused (report (main w args)))%nat ->
      printed (main w args)
      = (newline ++ "Potential Dependency Confusion Vulnerabilities Found:")
        :: map print_vuln (found (main w args))
      /\ List.length (printed (main w args))
         = S (count Confused (report (main w args)))).
Proof.
  rewrite confused_found.
  unfold targets, main.
  destruct (packages_to_check w args) as [lg ts]; simpl.
  destruct ts as [| t ts].
  - split; [reflexivity |]. split; [congruence |]. simpl. lia.
  - set (st := fold_left _ (t :: ts) _).
    split; [discriminate |].
    destruct (vulnerable_packages st) as [| v vs]; simpl.
    + split; [reflexivity | lia].
    + split; [discriminate |]. intros _. split; [reflexivity |].
      now rewrite length_map.
Qed.

Lemma printed_shapes_witness :
  printed (main (table_world [] []) default_args) = []
  /\ printed (main foo_older default_args)
     = ["No potential dependency confusion vulnerabilities found."]
  /\ List.length (printed (main mixed_world default_args)) = 2%nat.
Proof.
  split; [| split].
  - apply (proj1 (printed_shapes (table_world [] []) default_args)).
    reflexivity.
  - apply (proj1 (proj2 (printed_shapes foo_older default_args)));
      [discriminate | reflexivity].
  - destruct (proj2 (proj2 (printed_shapes mixed_world default_args)))
      as [_ L]; [vm_compute; lia |].
    rewrite L. reflexivity.
Defined.

(** X12.  A package whose installed version equals the registry's is not
    flagged: when the two parsed versions are [==], or the two strings
    are the same, the entry is [UpToDate]. *)
Theorem equal_versions_up_to_date w args i name local registry lv rv :
  nth_error (targets w args) i = Some (name, Some local) ->
  lookup w args name = ret (Some registry) ->
  parse local = ret lv ->
  parse registry = ret rv ->
  __eq__ lv rv = true \/ local = registry ->
  nth_error (report (main w args)) i = Some (name, UpToDate).
Proof.
  intros T L Pl Pr E.
  assert (Q : __eq__ lv rv = true).
  { destruct E as [E | ->]; [exact E |].
    assert (lv = rv) as -> by congruence.
    apply py_eq_refl. }
  assert (G : __gt__ lv rv = ret false).
  { unfold __gt__, __eq__ in *.
    rewrite (parse_key _ _ Pl), (parse_key _ _ Pr) in *.
    now rewrite (eq_not_gt _ _ Q). }
  apply (main_report_nth w args i _ _ T).
  pose proof (try_package_present w (pypi_url args) name (Some local)
                registry L) as H.
  rewrite (compare_both name local registry lv rv false Pl Pr G) in H.
  now destruct H as [-> _].
Qed.

Lemma equal_versions_up_to_date_witness :
  nth_error (report (main foo_same default_args)) 0%nat
  = Some ("foo", UpToDate).
Proof.
  eapply (equal_versions_up_to_date foo_same default_args 0%nat "foo"
            "1.0" "v1.0.0");
    try (vm_compute; reflexivity).
  left. vm_compute. reflexivity.
Defined.

(** X13.  A "Latest version" line with nothing but white space after its
    colon makes the lookup return the empty string; the package is then
    [Unparseable], whatever its installed version, and not
    [NotOnRegistry]. *)
Theorem blank_version_unparseable w args i name local :
  nth_error (targets w args) i = Some (name, local) ->
  lookup w args name = ret (Some EmptyString) ->
  nth_error (report (main w args)) i = Some (name, Unparseable).
Proof.
  intros T L.
  apply (main_report_nth w args i _ _ T).
  pose proof (try_package_present w (pypi_url args) name local
                EmptyString L) as H.
  assert (P : parse EmptyString = raise (InvalidVersion EmptyString))
    by (vm_compute; reflexivity).
  destruct (compare_registry_fails name local EmptyString _ P) as [s C].
  rewrite C in H. now destruct H as [-> _].
Qed.

Lemma blank_version_unparseable_witness :
  nth_error (report (main blank_world default_args)) 0%nat
  = Some ("foo", Unparseable).
Proof.
  apply (blank_version_unparseable blank_world default_args 0%nat "foo"
           (Some "2.0.0")); vm_compute; reflexivity.
Defined.

(** X14.  With a package named, the installed distributions are never
    enumerated: another working set, even a failing one, gives the same
    run. *)
Theorem named_package_ignores_working_set w ws args :
  truthy (package args) = true ->
  main (with_working_set w ws) args = main w args.
Proof.
  intros T. unfold main, packages_to_check. rewrite T.
  destruct (package args) as [p |]; [| reflexivity].
  cbn [fold_left]. unfold loop_body. cbn [fst snd].
  now rewrite (try_package_ext (with_working_set w ws) w
                 (pypi_url args) p None eq_refl).
Qed.

Lemma named_package_ignores_working_set_witness :
  main broken_world foo_only = main foo_newer foo_only.
Proof.
  apply (named_package_ignores_working_set
           foo_newer (raise (OtherException "broken")) foo_only).
  reflexivity.
Defined.

(** X15.  A run depends on the registry only through the lookups of its
    targets: two worlds with the same installed distributions that answer
    alike for every target give the same run. *)
Theorem only_target_lookups_matter w1 w2 args :
  working_set w1 = working_set w2 ->
  (forall name,
      In name (map fst (targets w1 args)) ->
      run_process w1 (pip_command w1 name (pypi_url args))
      = run_process w2 (pip_command w2 name (pypi_url args))) ->
  main w1 args = main w2 args.
Proof.
  intros W H.
  assert (P : packages_to_check w1 args = packages_to_check w2 args).
  { unfold packages_to_check, get_installed_packages. now rewrite W. }
  unfold targets in H. unfold main. rewrite <- P.
  destruct (packages_to_check w1 args) as [lg ts]; simpl in *.
  destruct ts as [| t ts]; [reflexivity |].
  now rewrite (loop_ext w1 w2 (pypi_url args) (t :: ts) _ H).
Qed.

Lemma only_target_lookups_matter_witness :
  main foo_newer default_args = main foo_newer_and_more default_args.
Proof.
  apply (only_target_lookups_matter foo_newer foo_newer_and_more
           default_args); [reflexivity |].
  intros name [<- | []]. reflexivity.
Defined.

End Extra.
